(** * The Outpost backend: order placement, point transfer and order listing

    A shallow embedding of the controllers [createOrder], [getOrders]
    (controllers/order.ts) and [transferPoint] (controllers/user.ts) together
    with the zod schemas they parse their input with (utils/validate.ts).

    The relational store behind the Prisma client is an explicit [Store]: one
    finite map per table, keyed by the primary key [id].  Controller code is
    written in a state-and-error monad over [Store]; [transaction] is the
    embedding of [prisma.$transaction].

    Conventions.
    - Integer columns and the JavaScript numbers computed from them are [Z]:
      the arithmetic of the controllers ([*], [+], [Math.floor(x / 1000)]) is
      exact on every value an INTEGER column can hold.
    - A transaction runs on one store from its first query to its commit.
      What other requests commit between a controller's reads and its
      transaction is modelled by giving the controller two stores: the one
      its reads saw and the one its transaction starts from.
    - The reads of [transferPoint] and the two queries of [getOrders] are
      outside any transaction as well: [transferPointAt] and [getOrdersAt]
      take the store of each of them apart.
    - The client refuses a value beyond the INTEGER range ([INT4_MAX]) with
      an error of its own, and zod's [.int()] refuses a whole number beyond
      the safe integers; neither refusal is embedded.  They only take
      successes away, so statements about a call that succeeded stand as
      they are; the theorems on when a request is answered with one given
      error, or goes through, name the bounds ([int4], [in_range],
      [pageable]) where they rely on them.
    - The Prisma schema is not among the sources; what is taken from the
      specification instead is marked where it is used. *)

From stdpp Require Import base gmap list strings sorting.
From Stdlib Require Import ZArith QArith Ascii.

Local Open Scope Z_scope.

(** ** Tables

    A row is stored under its [id]; the records below hold the remaining
    columns that the controllers read or write. *)

Module Product.
Record t := mk {
  name : string;
  price : Z;
  stock : Z;
  deletedAt : option Z
}.
End Product.

Module User.
Record t := mk {
  email : string;
  point : Z
}.
End User.

Module Order.
Record t := mk {
  userId : Z;
  totalPrice : Z;
  createdAt : Z
}.
End Order.

Module OrderItem.
Record t := mk {
  orderId : Z;
  productId : Z;
  quantity : Z;
  unitPrice : Z;
  totalPrice : Z
}.
End OrderItem.

(** The store: the four tables, the two id sequences used by [create], and
    the database clock that fills [createdAt]. *)
Record Store := mkStore {
  product : gmap Z Product.t;
  user : gmap Z User.t;
  order : gmap Z Order.t;
  orderItem : gmap Z OrderItem.t;
  order_seq : Z;
  orderItem_seq : Z;
  now : Z
}.

(** The rows of a store, without the sequences. *)
Definition tables (s : Store) :=
  (product s, user s, order s, orderItem s).

(** ** Errors and the client monad *)

Inductive Error :=
| AppError (status : Z) (message : string)
    (* thrown by the controllers: [new AppError(status, message)] *)
| RecordNotFound
    (* Prisma: the row named by [where] of an [update] does not exist *)
| UniqueConstraint
    (* Prisma: [create] on a primary key that is already taken *)
| TypeError.
    (* JavaScript: property read on [undefined] *)

Inductive Result (A : Type) :=
| Ok (a : A)
| Err (e : Error).
Arguments Ok {A} a.
Arguments Err {A} e.

Definition Prisma (A : Type) := Store -> Result A * Store.

Definition ret {A} (a : A) : Prisma A := fun s => (Ok a, s).

Definition throw {A} (e : Error) : Prisma A := fun s => (Err e, s).

Definition bind {A B} (m : Prisma A) (k : A -> Prisma B) : Prisma B :=
  fun s =>
    match m s with
    | (Ok a, s') => k a s'
    | (Err e, s') => (Err e, s')
    end.

Notation "'let*' x := m 'in' k" := (bind m (fun x => k))
  (at level 10, x name, m at level 100, k at level 200).

(** [await Promise.all(xs.map(async (x) => f x))] inside a transaction.
    The queries of one transaction reach the database one at a time, and the
    results come back in input order; the callbacks are run here one after
    the other, which leaves the same rows as any other order of their
    queries when all of them succeed.  A rejection rejects the whole. *)
Fixpoint mapM {A B} (f : A -> Prisma B) (xs : list A) : Prisma (list B) :=
  match xs with
  | [] => ret []
  | x :: xs' =>
      let* y := f x in
      let* ys := mapM f xs' in
      ret (y :: ys)
  end.

(** What survives a rollback: the rows of the store as they were when the
    transaction began.  Sequence values that were drawn are not given back. *)
Definition rollback (s0 s_failed : Store) : Store :=
  mkStore (product s0) (user s0) (order s0) (orderItem s0)
          (order_seq s_failed) (orderItem_seq s_failed) (now s0).

(** [prisma.$transaction(body)]: commit what [body] wrote when it returns,
    discard it when it throws, and rethrow. *)
Definition transaction {A} (body : Prisma A) : Prisma A :=
  fun s =>
    match body s with
    | (Ok a, s') => (Ok a, s')
    | (Err e, s') => (Err e, rollback s s')
    end.

(** ** The INTEGER columns *)

(** The values an INTEGER column holds and the client takes as an [Int].
    The client calls below are embedded as they behave on arguments and
    results within this range; for a value beyond it the client raises an
    error of its own, which is not embedded. *)
Definition INT4_MIN : Z := -2147483648.
Definition INT4_MAX : Z := 2147483647.

Definition int4 (n : Z) : Prop := INT4_MIN ≤ n ≤ INT4_MAX.

(** ** Client calls used by the controllers *)

(** [product.findMany({ where: { id: { in: ids }, deletedAt: null } })] *)
Definition product_findMany_in (ids : list Z) (s : Store)
  : list (Z * Product.t) :=
  filter (fun p => p.1 ∈ ids ∧ Product.deletedAt p.2 = None)
         (map_to_list (product s)).

(** [product.update({ where: { id }, data: { stock: { decrement: q } } })] *)
Definition product_update_stock_decrement (id q : Z) : Prisma unit :=
  fun s =>
    match product s !! id with
    | None => (Err RecordNotFound, s)
    | Some p =>
        let p' := Product.mk (Product.name p) (Product.price p)
                             (Product.stock p - q) (Product.deletedAt p) in
        (Ok tt, mkStore (<[id := p']> (product s)) (user s) (order s)
                        (orderItem s) (order_seq s) (orderItem_seq s) (now s))
    end.

(** Modelled from the spec: the Prisma schema (prisma/schema.prisma) that
    declares the column defaults is not among the sources.  The spec has
    the Order's "total price (integer, initially zero)". *)
Definition Order_totalPrice_default : Z := 0.

(** [order.create({ data: { userId } })]: [id] from the sequence,
    [totalPrice] and [createdAt] from their defaults. *)
Definition order_create (userId : Z) : Prisma (Z * Order.t) :=
  fun s =>
    let id := order_seq s in
    let row := Order.mk userId Order_totalPrice_default (now s) in
    let s1 := mkStore (product s) (user s) (order s) (orderItem s)
                      (id + 1) (orderItem_seq s) (now s) in
    match order s !! id with
    | Some _ => (Err UniqueConstraint, s1)
    | None =>
        (Ok (id, row),
         mkStore (product s) (user s) (<[id := row]> (order s)) (orderItem s)
                 (id + 1) (orderItem_seq s) (now s))
    end.

(** [order.update({ where: { id }, data: { totalPrice: { increment: n } } })] *)
Definition order_update_totalPrice_increment (id n : Z)
  : Prisma (Z * Order.t) :=
  fun s =>
    match order s !! id with
    | None => (Err RecordNotFound, s)
    | Some o =>
        let o' := Order.mk (Order.userId o) (Order.totalPrice o + n)
                           (Order.createdAt o) in
        (Ok (id, o'),
         mkStore (product s) (user s) (<[id := o']> (order s)) (orderItem s)
                 (order_seq s) (orderItem_seq s) (now s))
    end.

(** [orderItem.create({ data })] *)
Definition orderItem_create (data : OrderItem.t)
  : Prisma (Z * OrderItem.t) :=
  fun s =>
    let id := orderItem_seq s in
    let s1 := mkStore (product s) (user s) (order s) (orderItem s)
                      (order_seq s) (id + 1) (now s) in
    match orderItem s !! id with
    | Some _ => (Err UniqueConstraint, s1)
    | None =>
        (Ok (id, data),
         mkStore (product s) (user s) (order s) (<[id := data]> (orderItem s))
                 (order_seq s) (id + 1) (now s))
    end.

(** [user.update({ where: { id }, data: { point: { increment: n } } })];
    [decrement: n] is the same call with [- n]. *)
Definition user_update_point_increment (id n : Z) : Prisma (Z * User.t) :=
  fun s =>
    match user s !! id with
    | None => (Err RecordNotFound, s)
    | Some u =>
        let u' := User.mk (User.email u) (User.point u + n) in
        (Ok (id, u'),
         mkStore (product s) (<[id := u']> (user s)) (order s) (orderItem s)
                 (order_seq s) (orderItem_seq s) (now s))
    end.

Definition user_update_point_decrement (id n : Z) : Prisma (Z * User.t) :=
  user_update_point_increment id (- n).

(** [user.findUnique({ where: { id } })] *)
Definition user_findUnique (id : Z) (s : Store) : option (Z * User.t) :=
  (fun u => (id, u)) <$> user s !! id.

(** ** Request data *)

Inductive Role := USER | ADMIN.

#[global] Instance Role_eq_dec : EqDecision Role.
Proof. solve_decision. Defined.

(** The decoded token that [requireAuth] leaves in [req.user]. *)
Record JwtUser := mkJwtUser {
  jwt_id : Z;
  jwt_email : string;
  jwt_role : Role
}.

(** A JSON number of a request body, as a rational; [z.number().int()]
    accepts it when it is whole, [.positive()] when it is above zero.  The
    schema is handed the double that the number parses to, and [.int()]
    refuses a whole number beyond the safe integers (2^53 - 1): the
    embedding agrees with the schema on the rationals that are doubles of at
    most that size, the whole numbers of the INTEGER range among them. *)
Definition z_number_int_positive (q : Q) : option Z :=
  if decide (Qnum q `mod` Zpos (Qden q) = 0 ∧ 0 < Qnum q)
  then Some (Qnum q `div` Zpos (Qden q))
  else None.

Module RawItem.
Record t := mk {
  productId : Q;
  quantity : option Q   (* absent: [.default(1)] *)
}.
End RawItem.

Module Item.
Record t := mk {
  productId : Z;
  quantity : Z
}.
End Item.

Definition orderSchema_item (r : RawItem.t) : option Item.t :=
  match z_number_int_positive (RawItem.productId r) with
  | None => None
  | Some pid =>
      match RawItem.quantity r with
      | None => Some (Item.mk pid 1)
      | Some q =>
          match z_number_int_positive q with
          | None => None
          | Some n => Some (Item.mk pid n)
          end
      end
  end.

Fixpoint orderSchema_items (rs : list RawItem.t) : option (list Item.t) :=
  match rs with
  | [] => Some []
  | r :: rs' =>
      match orderSchema_item r, orderSchema_items rs' with
      | Some i, Some is' => Some (i :: is')
      | _, _ => None
      end
  end.

(** [orderSchema.safeParse(req.body)]; [None] stands for [success: false]. *)
Definition orderSchema (items : list RawItem.t) : option (list Item.t) :=
  match items with
  | [] => None   (* [.nonempty("Order must contain at least 1 item")] *)
  | _ => orderSchema_items items
  end.

(** ** [createOrder] (controllers/order.ts) *)

(** An OrderItem as [orderItem.create] returns it under
    [omit: { orderId: true }]. *)
Module ItemOut.
Record t := mk {
  id : Z;
  productId : Z;
  quantity : Z;
  unitPrice : Z;
  totalPrice : Z
}.
End ItemOut.

Definition omit_orderId (r : Z * OrderItem.t) : ItemOut.t :=
  ItemOut.mk r.1 (OrderItem.productId r.2) (OrderItem.quantity r.2)
             (OrderItem.unitPrice r.2) (OrderItem.totalPrice r.2).

(** The response: [{ ...newOrderWithTotalPrice, points, items: orderItems }] *)
Module OrderResponse.
Record t := mk {
  id : Z;
  userId : Z;
  totalPrice : Z;
  createdAt : Z;
  points : Z;
  items : list ItemOut.t
}.
End OrderResponse.

(** [products.find((p) => p.id === productId)] *)
Definition find_product (products : list (Z * Product.t)) (productId : Z)
  : option (Z * Product.t) :=
  List.find (fun p => bool_decide (p.1 = productId)) products.

(** The stock availability check, [items.forEach((item) => { ... })]:
    [Some e] when the loop throws [e]. *)
Fixpoint stock_check (products : list (Z * Product.t)) (items : list Item.t)
  : option Error :=
  match items with
  | [] => None
  | item :: rest =>
      match find_product products (Item.productId item) with
      | None => stock_check products rest   (* [if (!product) return;] *)
      | Some p =>
          if bool_decide (Product.stock p.2 < Item.quantity item)
          then Some (AppError 400 ("Not enough stock for product "
                                     +:+ Product.name p.2))
          else stock_check products rest
      end
  end.

(** One turn of [items.map(async (item) => { ... })] in the transaction. *)
Definition createOrderLine (orderId : Z) (products : list (Z * Product.t))
    (item : Item.t) : Prisma ItemOut.t :=
  match find_product products (Item.productId item) with
  | None => throw TypeError   (* [find(...)!] was [undefined] *)
  | Some p =>
      let* _ := product_update_stock_decrement p.1 (Item.quantity item) in
      let* created :=
        orderItem_create
          (OrderItem.mk orderId p.1 (Item.quantity item) (Product.price p.2)
                        (Product.price p.2 * Item.quantity item)) in
      ret (omit_orderId created)
  end.

(** [orderItems.reduce((acc, item) => acc + item.totalPrice, 0)] *)
Definition reduce_totalPrice (orderItems : list ItemOut.t) : Z :=
  foldl (fun acc item => acc + ItemOut.totalPrice item) 0 orderItems.

(** The callback handed to [prisma.$transaction]. *)
Definition createOrderTx (user : JwtUser) (items : list Item.t)
    (products : list (Z * Product.t)) : Prisma OrderResponse.t :=
  let* newOrder := order_create (jwt_id user) in
  let* orderItems := mapM (createOrderLine newOrder.1 products) items in
  let totalOrderPrice := reduce_totalPrice orderItems in
  let* newOrderWithTotalPrice :=
    order_update_totalPrice_increment newOrder.1 totalOrderPrice in
  (* Increment user point per 1000: [Math.floor(totalOrderPrice / 1000)] *)
  let points := totalOrderPrice `div` 1000 in
  let* _ := user_update_point_increment (jwt_id user) points in
  ret (OrderResponse.mk newOrderWithTotalPrice.1
         (Order.userId newOrderWithTotalPrice.2)
         (Order.totalPrice newOrderWithTotalPrice.2)
         (Order.createdAt newOrderWithTotalPrice.2)
         points orderItems).

(** The controller.  Its reads ([findMany]) happen before the transaction is
    opened, and other requests may commit in between: [read] is the store as
    [findMany] saw it, the monad's state is the store when the transaction
    opens. *)
Definition createOrderAt (read : Store) (user : JwtUser)
    (body : list RawItem.t) : Prisma OrderResponse.t :=
  match orderSchema body with
  | None => throw (AppError 400 "Invalid request body")
  | Some items =>
      (* Get valid products by product id *)
      let productIds := map Item.productId items in
      let products := product_findMany_in productIds read in
      if bool_decide (length products ≠ length productIds)
      then throw (AppError 400 "One or more products not found")
      else
        match stock_check products items with
        | Some e => throw e
        | None => transaction (createOrderTx user items products)
        end
  end.

(** A request that no other request interleaves with. *)
Definition createOrder (user : JwtUser) (body : list RawItem.t)
  : Prisma OrderResponse.t :=
  fun s => createOrderAt s user body s.

(** ** [transferPoint] (controllers/user.ts) *)

Module TransferBody.
Record t := mk {
  receiverId : Q;
  amount : Q
}.
End TransferBody.

Module Transfer.
Record t := mk {
  receiverId : Z;
  amount : Z
}.
End Transfer.

(** [transferPointSchema.safeParse(req.body)] *)
Definition transferPointSchema (body : TransferBody.t) : option Transfer.t :=
  match z_number_int_positive (TransferBody.receiverId body),
        z_number_int_positive (TransferBody.amount body) with
  | Some receiverId, Some amount => Some (Transfer.mk receiverId amount)
  | _, _ => None
  end.

(** The response: [{ sender: updatedSender, receiver: updatedReceiver }],
    each selected as [{ id, email, point }]. *)
Module TransferResponse.
Record t := mk {
  sender : Z * User.t;
  receiver : Z * User.t
}.
End TransferResponse.

(** The controller.  The two [findUnique] reads and the checks on what they
    returned come before the batch transaction is opened, and other requests
    may commit in between: [read] is the store as the two reads saw it, the
    monad's state is the store when the batch runs. *)
Definition transferPointAt (read : Store) (user : JwtUser)
    (body : TransferBody.t) : Prisma TransferResponse.t :=
  match transferPointSchema body with
  | None => throw (AppError 400 "Error in validation")
  | Some data =>
      (* Validate point amount *)
      if bool_decide (Transfer.amount data ≤ 0)
      then throw (AppError 400 "Point must be greater than 0")
      else
        (* Get user data *)
        match user_findUnique (jwt_id user) read,
              user_findUnique (Transfer.receiverId data) read with
        | Some sender, Some receiver =>
            if bool_decide (sender.1 = receiver.1)
            then throw (AppError 400 "Can't self transfer point")
            else if bool_decide (User.point sender.2 < Transfer.amount data)
            then throw (AppError 400 "Insufficient points")
            else
              transaction
                (let* updatedSender :=
                   user_update_point_decrement sender.1
                     (Transfer.amount data) in
                 let* updatedReceiver :=
                   user_update_point_increment (Transfer.receiverId data)
                     (Transfer.amount data) in
                 ret (TransferResponse.mk updatedSender updatedReceiver))
        | _, _ => throw (AppError 400 "Sender or Receiver not found")
        end
  end.

(** A call that no other request interleaves with: the two reads and the
    batch see the same store. *)
Definition transferPoint (user : JwtUser) (body : TransferBody.t)
  : Prisma TransferResponse.t :=
  fun s => transferPointAt s user body s.

(** ** [getOrders] (controllers/order.ts) *)

(** [Object.keys(obj).length], one optional key at a time. *)
Definition key {A} (field : option A) : nat :=
  match field with Some _ => 1 | None => 0 end.

(** A range filter on an integer column: [{ gte?, lte? }]. *)
Module IntFilter.
Record t := mk {
  gte : option Z;
  lte : option Z
}.

Definition keys (f : t) : nat :=
  key (gte f) + key (lte f).

Definition matches (f : t) (v : Z) : bool :=
  match gte f with Some lo => bool_decide (lo ≤ v) | None => true end &&
  match lte f with Some hi => bool_decide (v ≤ hi) | None => true end.
End IntFilter.

(** The keys of [Prisma.OrderWhereInput] that the controller sets: [userId],
    [totalPrice], and [items: { some: { totalPrice } }] of the fallback. *)
Module OrderWhereInput.
Record t := mk {
  userId : option Z;
  totalPrice : option IntFilter.t;
  items_some_totalPrice : option IntFilter.t
}.

Definition keys (w : t) : nat :=
  key (userId w) + key (totalPrice w) + key (items_some_totalPrice w).
End OrderWhereInput.

Definition buildOrderWhere (userId minPrice maxPrice : option Z)
  : OrderWhereInput.t :=
  let fallback :=
    OrderWhereInput.mk None None (Some (IntFilter.mk (Some 0) None)) in
  let totalPriceRange := IntFilter.mk minPrice maxPrice in
  let where_ :=
    OrderWhereInput.mk userId
      (if bool_decide (0 < IntFilter.keys totalPriceRange)%nat
       then Some totalPriceRange else None)
      None in
  if bool_decide (0 < OrderWhereInput.keys where_)%nat
  then where_ else fallback.

Inductive SortOrder := asc | desc.

(** [orderBy]: at most one of the two columns is set. *)
Module OrderBy.
Record t := mk {
  totalPrice : option SortOrder;
  createdAt : option SortOrder
}.

Definition keys (o : t) : nat :=
  key (totalPrice o) + key (createdAt o).
End OrderBy.

(** [str.split(".")] *)
Fixpoint split_dot (str : string) : list string :=
  match str with
  | EmptyString => [EmptyString]
  | String c rest =>
      if bool_decide (c = "."%char)
      then EmptyString :: split_dot rest
      else
        match split_dot rest with
        | [] => [String c EmptyString]
        | seg :: segs => String c seg :: segs
        end
  end.

Definition buildOrderOrderBy (sortBy : option string) : OrderBy.t :=
  let fallback := OrderBy.mk None (Some desc) in
  match sortBy with
  | None => fallback
  | Some "" => fallback   (* [if (!sortBy) return fallback] *)
  | Some sortBy =>
      let parts := split_dot sortBy in
      let col := parts !! 0%nat in
      let dir := parts !! 1%nat in
      let direction :=
        if bool_decide (dir = Some "asc") then asc else desc in
      let sort :=
        OrderBy.mk
          (if bool_decide (col = Some "totalPrice")
           then Some direction else None)
          (if bool_decide (col = Some "createdAt")
           then Some direction else None) in
      if bool_decide (0 < OrderBy.keys sort)%nat then sort else fallback
  end.

(** The query string after [Number(val)], for parameters that convert to
    whole numbers: [None] is [NaN] (also what an absent parameter converts
    to).  A fraction is a number that the client refuses as [take], as
    [skip] and as a bound on an INTEGER column. *)
Module Query.
Record t := mk {
  sortBy : option string;
  minPrice : option Z;
  maxPrice : option Z;
  limit : option Z;
  page : option Z
}.
End Query.

(** [paginationSchema]: [!isNaN(num) && num > 0 ? num : fallback] *)
Definition paginationSchema_field (fallback : Z) (val : option Z) : Z :=
  match val with
  | Some num => if bool_decide (0 < num) then num else fallback
  | None => fallback
  end.

(** Does the row satisfy [where]?  The keys that are present all have to
    hold. *)
Definition order_matches (s : Store) (w : OrderWhereInput.t)
    (o : Z * Order.t) : bool :=
  match OrderWhereInput.userId w with
  | Some uid => bool_decide (Order.userId o.2 = uid)
  | None => true
  end &&
  match OrderWhereInput.totalPrice w with
  | Some f => IntFilter.matches f (Order.totalPrice o.2)
  | None => true
  end &&
  match OrderWhereInput.items_some_totalPrice w with
  | Some f =>
      bool_decide
        (Exists (fun i => OrderItem.orderId i.2 = o.1 ∧
                          IntFilter.matches f (OrderItem.totalPrice i.2) = true)
                (map_to_list (orderItem s)))
  | None => true
  end.

(** The rows [where] selects, before ordering and paging. *)
Definition order_where (w : OrderWhereInput.t) (s : Store)
  : list (Z * Order.t) :=
  filter (fun o => order_matches s w o = true) (map_to_list (order s)).

(** The order that [orderBy] asks for. *)
Definition order_before (ob : OrderBy.t) (a b : Z * Order.t) : Prop :=
  match OrderBy.totalPrice ob, OrderBy.createdAt ob with
  | Some asc, _ => Order.totalPrice a.2 ≤ Order.totalPrice b.2
  | Some desc, _ => Order.totalPrice b.2 ≤ Order.totalPrice a.2
  | None, Some asc => Order.createdAt a.2 ≤ Order.createdAt b.2
  | None, Some desc => Order.createdAt b.2 ≤ Order.createdAt a.2
  | None, None => True
  end.

#[global] Instance order_before_dec ob a b : Decision (order_before ob a b).
Proof.
  unfold order_before.
  destruct (OrderBy.totalPrice ob) as [[]|], (OrderBy.createdAt ob) as [[]|];
    apply _.
Defined.

(** A listed order with [include: { items: { omit: { orderId: true } } }]. *)
Module OrderWithItems.
Record t := mk {
  id : Z;
  userId : Z;
  totalPrice : Z;
  createdAt : Z;
  items : list ItemOut.t
}.
End OrderWithItems.

Definition include_items (s : Store) (o : Z * Order.t) : OrderWithItems.t :=
  OrderWithItems.mk o.1 (Order.userId o.2) (Order.totalPrice o.2)
    (Order.createdAt o.2)
    (omit_orderId <$>
       filter (fun i => OrderItem.orderId i.2 = o.1)
              (map_to_list (orderItem s))).

(** [order.findMany({ where, orderBy, include, take, skip })] *)
Definition order_findMany (w : OrderWhereInput.t) (ob : OrderBy.t)
    (take_ skip_ : Z) (s : Store) : list OrderWithItems.t :=
  include_items s <$>
    take (Z.to_nat take_)
         (drop (Z.to_nat skip_) (merge_sort (order_before ob) (order_where w s))).

(** [order.count({ where })] *)
Definition order_count (w : OrderWhereInput.t) (s : Store) : Z :=
  Z.of_nat (length (order_where w s)).

(** [paginationResponse({ page, limit, total, data })] (utils/response.ts) *)
Module Meta.
Record t (T : Type) := mk {
  limit : Z;
  page : Z;
  total : Z;
  data : T
}.
Arguments mk {T} _ _ _ _.
Arguments limit {T} _.
Arguments page {T} _.
Arguments total {T} _.
Arguments data {T} _.
End Meta.

Definition paginationResponse {T} (limit page total : Z) (data : T)
  : Meta.t T :=
  Meta.mk limit page total data.

(** The controller, when [findMany] and [count] see the same store;
    [getOrdersAt] below takes the two queries apart. *)
Definition getOrders (user : JwtUser) (query : Query.t) (s : Store)
  : Meta.t (list OrderWithItems.t) :=
  (* Pagination *)
  let limit := paginationSchema_field 30 (Query.limit query) in
  let page := paginationSchema_field 1 (Query.page query) in
  (* Ordering *)
  let orderBy := buildOrderOrderBy (Query.sortBy query) in
  (* Filtering *)
  let where_ :=
    if bool_decide (jwt_role user = ADMIN)
    then buildOrderWhere None (Query.minPrice query) (Query.maxPrice query)
    else buildOrderWhere (Some (jwt_id user))
                         (Query.minPrice query) (Query.maxPrice query) in
  paginationResponse limit page (order_count where_ s)
    (order_findMany where_ orderBy limit ((page - 1) * limit) s).

(** [findMany] and [count] are two queries of a [Promise.all], not one
    transaction, and an order may commit between them: [listed] is the store
    as [findMany] saw it, [counted] the store as [count] saw it.
    [getOrders] above is the call where both saw the same store. *)
Definition getOrdersAt (listed counted : Store) (user : JwtUser)
    (query : Query.t) : Meta.t (list OrderWithItems.t) :=
  (* Pagination *)
  let limit := paginationSchema_field 30 (Query.limit query) in
  let page := paginationSchema_field 1 (Query.page query) in
  (* Ordering *)
  let orderBy := buildOrderOrderBy (Query.sortBy query) in
  (* Filtering *)
  let where_ :=
    if bool_decide (jwt_role user = ADMIN)
    then buildOrderWhere None (Query.minPrice query) (Query.maxPrice query)
    else buildOrderWhere (Some (jwt_id user))
                         (Query.minPrice query) (Query.maxPrice query) in
  paginationResponse limit page (order_count where_ counted)
    (order_findMany where_ orderBy limit ((page - 1) * limit) listed).


(** ** [updateProduct] (controllers/product.ts): its write *)

(** [product.update({ where: { id }, data: { name, price, stock, ... } })] *)
Definition product_update (id : Z) (name : string) (price stock : Z)
  : Prisma unit :=
  fun s =>
    match product s !! id with
    | None => (Err RecordNotFound, s)
    | Some p =>
        (Ok tt,
         mkStore (<[id := Product.mk name price stock (Product.deletedAt p)]>
                    (product s))
                 (user s) (order s) (orderItem s)
                 (order_seq s) (orderItem_seq s) (now s))
    end.

(** ** Vocabulary of the statements *)

(** The stored row of a returned OrderItem of order [orderId]. *)
Definition item_row (orderId : Z) (out : ItemOut.t) : OrderItem.t :=
  OrderItem.mk orderId (ItemOut.productId out) (ItemOut.quantity out)
               (ItemOut.unitPrice out) (ItemOut.totalPrice out).

Definition sumZ (l : list Z) : Z := foldr Z.add 0 l.

(** A requested product id resolves: the store has the product and it is not
    soft-deleted. *)
Definition resolves (read : Store) (productId : Z) : Prop :=
  ∃ p, product read !! productId = Some p ∧ Product.deletedAt p = None.

(** The product ids and quantities of a request are all within the INTEGER
    range. *)
Definition in_range (items : list Item.t) : Prop :=
  Forall (fun item => Item.productId item ≤ INT4_MAX ∧
                      Item.quantity item ≤ INT4_MAX) items.

(** What a request asks of product [k], all its lines together. *)
Definition ordered (k : Z) (items : list Item.t) : Z :=
  sumZ (Item.quantity <$> filter (fun i => Item.productId i = k) items).

(** A product row after [n] units were taken off its stock. *)
Definition take_stock (n : Z) (p : Product.t) : Product.t :=
  Product.mk (Product.name p) (Product.price p) (Product.stock p - n)
             (Product.deletedAt p).

(** A returned OrderItem answers a request line whose product was read as
    [p]. *)
Definition line_of (products : list (Z * Product.t)) (item : Item.t)
    (out : ItemOut.t) : Prop :=
  ∃ p, find_product products (Item.productId item) = Some p ∧
       ItemOut.productId out = p.1 ∧
       ItemOut.quantity out = Item.quantity item ∧
       ItemOut.unitPrice out = Product.price p.2 ∧
       ItemOut.totalPrice out = Product.price p.2 * Item.quantity item.

(** ** Worked example: the end-to-end scenario of the specification *)

Module Scenario.
Definition A : Product.t := Product.mk "A" 600 5 None.
Definition B : Product.t := Product.mk "B" 1500 2 None.
Definition U : JwtUser := mkJwtUser 7 "u@example.com" USER.

Definition s0 : Store :=
  mkStore (<[1 := A]> (<[2 := B]> ∅)) (<[7 := User.mk "u@example.com" 0]> ∅)
          ∅ ∅ 1 1 1000.

Definition line (productId quantity : Z) : RawItem.t :=
  RawItem.mk (inject_Z productId) (Some (inject_Z quantity)).

Definition body : list RawItem.t := [line 1 2; line 2 1].

(** The response and the store after the order went through. *)
Definition response : OrderResponse.t :=
  OrderResponse.mk 1 7 2700 1000 2
    [ItemOut.mk 1 1 2 600 1200; ItemOut.mk 2 2 1 1500 1500].

Definition s1 : Store := (createOrder U body s0).2.

(** [s0] after product B's row was removed by someone else. *)
Definition s0_without_B : Store :=
  mkStore (<[1 := A]> ∅) (user s0) ∅ ∅ 1 1 1000.

(** [s0] after product A was repriced from 600 to 900. *)
Definition s0_repriced : Store :=
  mkStore (<[1 := Product.mk "A" 900 5 None]> (<[2 := B]> ∅)) (user s0)
          ∅ ∅ 1 1 1000.

(** Two buyers each ask for 3 of the 5 units of A. *)
Definition three_of_A : list RawItem.t := [line 1 3].

Definition V : JwtUser := mkJwtUser 8 "v@example.com" USER.

Definition s0_two_buyers : Store :=
  mkStore (product s0) (<[8 := User.mk "v@example.com" 0]> (user s0))
          ∅ ∅ 1 1 1000.

(** One request line repeated; and a too large line followed by a repeat
    of its product. *)
Definition repeated : list RawItem.t := [line 1 1; line 1 1].

Definition too_many_repeated : list RawItem.t := [line 1 10; line 1 1].

(** U holds 50 points and V holds 5. *)
Definition bank : Store :=
  mkStore ∅ (<[7 := User.mk "u@example.com" 50]>
               (<[8 := User.mk "v@example.com" 5]> ∅))
          ∅ ∅ 1 1 1000.

Definition transfer (receiverId amount : Z) : TransferBody.t :=
  TransferBody.mk (inject_Z receiverId) (inject_Z amount).

(** Three orders: two of U, one of V. *)
Definition ledger : Store :=
  mkStore ∅ (user bank)
          (<[1 := Order.mk 7 2700 1000]>
             (<[2 := Order.mk 8 500 1001]>
                (<[3 := Order.mk 7 900 1002]> ∅)))
          ∅ 4 1 1003.
End Scenario.

(** ** [getUserOrders] (controllers/order.ts) *)

(** The controller, for a [:userId] path parameter that converts to the
    number [userId]. *)
Definition getUserOrders (userId : Z) (query : Query.t) (s : Store)
  : Result (Meta.t (list OrderWithItems.t)) :=
  match user_findUnique userId s with
  | None => Err (AppError 404 "User not found")
  | Some found =>
      (* Pagination *)
      let limit := paginationSchema_field 30 (Query.limit query) in
      let page := paginationSchema_field 1 (Query.page query) in
      (* Ordering *)
      let orderBy := buildOrderOrderBy (Query.sortBy query) in
      (* Filtering *)
      let where_ :=
        buildOrderWhere (Some found.1)
                        (Query.minPrice query) (Query.maxPrice query) in
      Ok (paginationResponse limit page (order_count where_ s)
            (order_findMany where_ orderBy limit ((page - 1) * limit) s))
  end.

(** ** [buildOrderGroupedOrderBy] (controllers/order.ts) *)

(** [orderBy] of the summaries: [_sum.totalPrice], [_count.id] or
    [_max.createdAt]. *)
Module GroupedOrderBy.
Record t := mk {
  sum_totalPrice : option SortOrder;
  count_id : option SortOrder;
  max_createdAt : option SortOrder
}.

Definition keys (o : t) : nat :=
  key (sum_totalPrice o) + key (count_id o) + key (max_createdAt o).
End GroupedOrderBy.

Definition buildOrderGroupedOrderBy (sortBy : option string)
  : GroupedOrderBy.t :=
  let fallback := GroupedOrderBy.mk None None (Some desc) in
  match sortBy with
  | None => fallback
  | Some "" => fallback   (* [if (!sortBy) return fallback] *)
  | Some sortBy =>
      let parts := split_dot sortBy in
      let col := parts !! 0%nat in
      let dir := parts !! 1%nat in
      let direction :=
        if bool_decide (dir = Some "asc") then asc else desc in
      let sort :=
        GroupedOrderBy.mk
          (if bool_decide (col = Some "totalPrice")
           then Some direction else None)
          (if bool_decide (col = Some "orderCount")
           then Some direction else None)
          None in
      if bool_decide (0 < GroupedOrderBy.keys sort)%nat then sort else fallback
  end.

(** ** Middlewares (middlewares/auth.ts) *)

(** [str.slice(n)] *)
Fixpoint slice (n : nat) (str : string) : string :=
  match n, str with
  | O, _ => str
  | S n', String _ rest => slice n' rest
  | S _, EmptyString => EmptyString
  end.

(** [getToken(req)], from [req.cookies?.token] and
    [req.headers.authorization]. *)
Definition getToken (cookieToken authorization : option string)
  : option string :=
  let headerToken :=
    match authorization with
    | Some authHeader =>
        if bool_decide (authHeader ≠ "") && String.prefix "Bearer " authHeader
        then Some (slice (String.length "Bearer ") authHeader)
        else None
    | None => None
    end in
  match cookieToken with
  | Some token => Some token   (* [cookieToken ?? headerToken()] *)
  | None => headerToken
  end.

(** [requireAuth]: the decoded user it leaves in [req.user], or the error it
    throws.  [verifyJWT] (utils/auth.ts) is [jwt.verify] under the server's
    secret: [None] when it throws. *)
Definition requireAuth (verifyJWT : string -> option JwtUser)
    (cookieToken authorization : option string) : Result JwtUser :=
  match getToken cookieToken authorization with
  | None => Err (AppError 401 "Missing or invalid authorization")
  | Some token =>
      if bool_decide (token = "")   (* [if (!token)] *)
      then Err (AppError 401 "Missing or invalid authorization")
      else
        match verifyJWT token with
        | Some decoded => Ok decoded
        | None => Err (AppError 401 "Invalid or expired token")
        end
  end.

(** [authorize(roles)] on [req.user]. *)
Definition authorize (roles : list Role) (user : option JwtUser)
  : Result unit :=
  match user with
  | None => Err (AppError 401 "Unauthorized")
  | Some user =>
      if bool_decide (jwt_role user ∈ roles)
      then Ok tt
      else Err (AppError 403 "Access forbidden")
  end.

(** [router.get("/users/:userId/orders", requireAuth, authorize(["ADMIN"]),
    getUserOrders)] (routes/order.ts) *)
Definition route_getUserOrders (verifyJWT : string -> option JwtUser)
    (cookieToken authorization : option string) (userId : Z)
    (query : Query.t) (s : Store) : Result (Meta.t (list OrderWithItems.t)) :=
  match requireAuth verifyJWT cookieToken authorization with
  | Err e => Err e
  | Ok user =>
      match authorize [ADMIN] (Some user) with
      | Err e => Err e
      | Ok _ => getUserOrders userId query s
      end
  end.

(** ** Product listing and soft delete (controllers/product.ts) *)

Inductive STATUS := active | deleted.

(** [deletedAt: null] and [deletedAt: { not: null }] *)
Inductive NullFilter := is_null | not_null.

Module ProductWhereInput.
Record t := mk {
  OR_contains : option string;   (* [name] or [desc] contains, insensitive *)
  deletedAt : option NullFilter;
  price : option IntFilter.t;
  stock : option IntFilter.t
}.

Definition keys (w : t) : nat :=
  key (OR_contains w) + key (deletedAt w) + key (price w) + key (stock w).
End ProductWhereInput.

Definition buildProductWhere (user : JwtUser) (keyword : option string)
    (status : option STATUS) (minPrice maxPrice minStock maxStock : option Z)
  : ProductWhereInput.t :=
  let fallback :=
    ProductWhereInput.mk None None (Some (IntFilter.mk (Some 0) None)) None in
  let totalPriceRange := IntFilter.mk minPrice maxPrice in
  let stockRange := IntFilter.mk minStock maxStock in
  let where_ :=
    ProductWhereInput.mk
      (match keyword with
       | Some k => if bool_decide (k ≠ "") then Some k else None
       | None => None
       end)
      (Some
         (match status with
          | Some active => is_null
          | Some deleted =>
              if bool_decide (jwt_role user = ADMIN) then not_null else is_null
          | None => is_null
          end))
      (if bool_decide (0 < IntFilter.keys totalPriceRange)%nat
       then Some totalPriceRange else None)
      (if bool_decide (0 < IntFilter.keys stockRange)%nat
       then Some stockRange else None) in
  if bool_decide (0 < ProductWhereInput.keys where_)%nat
  then where_ else fallback.

(** Does the row satisfy [where]?  [contains keyword row] stands for the
    database's case-insensitive search of [keyword] in the row's [name] and
    [desc]. *)
Definition product_matches (contains : string -> Z * Product.t -> bool)
    (w : ProductWhereInput.t) (p : Z * Product.t) : bool :=
  match ProductWhereInput.OR_contains w with
  | Some keyword => contains keyword p
  | None => true
  end &&
  match ProductWhereInput.deletedAt w with
  | Some is_null => bool_decide (Product.deletedAt p.2 = None)
  | Some not_null => bool_decide (Product.deletedAt p.2 ≠ None)
  | None => true
  end &&
  match ProductWhereInput.price w with
  | Some f => IntFilter.matches f (Product.price p.2)
  | None => true
  end &&
  match ProductWhereInput.stock w with
  | Some f => IntFilter.matches f (Product.stock p.2)
  | None => true
  end.

(** The rows [where] selects: what [product.count({ where })] counts and
    [product.findMany({ where, ... })] orders and pages. *)
Definition product_where (contains : string -> Z * Product.t -> bool)
    (w : ProductWhereInput.t) (s : Store) : list (Z * Product.t) :=
  filter (fun p => product_matches contains w p = true)
         (map_to_list (product s)).

(** [idSchema] on the number that [:id] coerces to ([None]: not a number). *)
Definition idSchema (id : option Z) : option Z :=
  match id with
  | Some n => if bool_decide (0 < n) then Some n else None
  | None => None
  end.

(** [product.update({ where: { id }, data: { deletedAt } })] *)
Definition product_update_deletedAt (id : Z) (deletedAt : option Z)
  : Prisma unit :=
  fun s =>
    match product s !! id with
    | None => (Err RecordNotFound, s)
    | Some p =>
        (Ok tt,
         mkStore (<[id := Product.mk (Product.name p) (Product.price p)
                            (Product.stock p) deletedAt]> (product s))
                 (user s) (order s) (orderItem s)
                 (order_seq s) (orderItem_seq s) (now s))
    end.

Definition deleteProduct (params_id : option Z) : Prisma unit :=
  fun s =>
    match idSchema params_id with
    | None => throw (AppError 400 "Invalid ID in params") s
    | Some id =>
        match product s !! id with
        | None => throw (AppError 404 "Product not found") s
        | Some oldProduct =>
            (* Soft delete *)
            product_update_deletedAt id (Some (now s)) s
        end
    end.

(** The response [{ restoredProduct }] carries the row's [id] and [name]. *)
Definition restoreProduct (params_id : option Z) : Prisma (Z * string) :=
  fun s =>
    match idSchema params_id with
    | None => throw (AppError 400 "Invalid ID in params") s
    | Some id =>
        match product s !! id with
        | Some found =>
            match Product.deletedAt found with
            | Some _ =>
                (let* _ := product_update_deletedAt id None in
                 ret (id, Product.name found)) s
            | None => throw (AppError 404 "Product not found") s
            end
        | None => throw (AppError 404 "Product not found") s
        end
    end.

(** ** More vocabulary *)

(** All the points there are. *)
Definition total_points (s : Store) : Z :=
  sumZ (User.point <$> (map_to_list (user s)).*2).

(** ** A store with a history, for examples *)

Module Fixture.
(** The products of the scenario, the users U (50 points) and V (5 points),
    three earlier orders and their items. *)
Definition shop : Store :=
  mkStore (product Scenario.s0) (user Scenario.bank) (order Scenario.ledger)
          (<[1 := OrderItem.mk 1 1 2 600 1200]>
             (<[2 := OrderItem.mk 1 2 1 1500 1500]>
                (<[3 := OrderItem.mk 2 1 1 500 500]> ∅)))
          4 4 1003.

(** [jwt.verify] of a server whose only valid tokens are "u-token" (user U)
    and "root-token" (an administrator). *)
Definition root : JwtUser := mkJwtUser 1 "root@example.com" ADMIN.

Definition verifyJWT (token : string) : option JwtUser :=
  if bool_decide (token = "u-token") then Some Scenario.U
  else if bool_decide (token = "root-token") then Some root
  else None.
End Fixture.

Example scenario_response :
  createOrder Scenario.U Scenario.body Scenario.s0
  = (Ok Scenario.response, Scenario.s1).
Proof. vm_compute. reflexivity. Qed.

Example scenario_store :
  let s := Scenario.s1 in
  Product.stock <$> product s !! 1 = Some 3 ∧
  Product.stock <$> product s !! 2 = Some 1 ∧
  User.point <$> user s !! 7 = Some 2 ∧
  Order.totalPrice <$> order s !! 1 = Some 2700.
Proof. vm_compute. auto. Qed.

(** ** The monad *)

(** Closes the goal of a lemma about failure when the failure is a [throw]
    of the controller itself: it leaves the store as it is. *)
Ltac thrown := by intros [= _ <-].

Lemma bind_Ok {A B} (m : Prisma A) (k : A -> Prisma B) s b s' :
  bind m k s = (Ok b, s') →
  ∃ a s1, m s = (Ok a, s1) ∧ k a s1 = (Ok b, s').
Proof.
  unfold bind. destruct (m s) as [[a|e] s1]; [eauto | discriminate].
Qed.

Lemma bind_Err {A B} (m : Prisma A) (k : A -> Prisma B) s e s' :
  bind m k s = (Err e, s') →
  m s = (Err e, s') ∨ ∃ a s1, m s = (Ok a, s1) ∧ k a s1 = (Err e, s').
Proof.
  unfold bind. destruct (m s) as [[a|e0] s1]; [eauto | left; congruence].
Qed.

Lemma transaction_Ok {A} (body : Prisma A) s a s' :
  transaction body s = (Ok a, s') → body s = (Ok a, s').
Proof.
  unfold transaction. destruct (body s) as [[a0|e] s1]; congruence.
Qed.

(** A transaction that throws leaves the rows as they were. *)
Lemma transaction_Err {A} (body : Prisma A) s e s' :
  transaction body s = (Err e, s') →
  tables s' = tables s ∧ ∃ s1, body s = (Err e, s1).
Proof.
  unfold transaction. destruct (body s) as [[a0|e0] s1]; [discriminate|].
  intros [= -> <-]. eauto.
Qed.

Lemma reduce_totalPrice_acc (l : list ItemOut.t) (acc : Z) :
  foldl (fun acc item => acc + ItemOut.totalPrice item) acc l =
  acc + sumZ (ItemOut.totalPrice <$> l).
Proof.
  unfold sumZ. revert acc. induction l as [|x l IH]; intros acc; csimpl.
  - lia.
  - rewrite IH. lia.
Qed.

Lemma reduce_totalPrice_sum (l : list ItemOut.t) :
  reduce_totalPrice l = sumZ (ItemOut.totalPrice <$> l).
Proof. unfold reduce_totalPrice. by rewrite reduce_totalPrice_acc. Qed.

(** ** The transaction of [createOrder], step by step *)

Lemma createOrderLine_Ok orderId products item s out s' :
  createOrderLine orderId products item s = (Ok out, s') →
  ∃ p p0,
    find_product products (Item.productId item) = Some p ∧
    out = ItemOut.mk (orderItem_seq s) p.1 (Item.quantity item)
            (Product.price p.2) (Product.price p.2 * Item.quantity item) ∧
    orderItem s !! orderItem_seq s = None ∧
    orderItem s' = <[orderItem_seq s := item_row orderId out]> (orderItem s) ∧
    product s !! p.1 = Some p0 ∧
    product s' =
      <[p.1 := Product.mk (Product.name p0) (Product.price p0)
                 (Product.stock p0 - Item.quantity item)
                 (Product.deletedAt p0)]> (product s) ∧
    order s' = order s ∧ user s' = user s ∧
    order_seq s' = order_seq s ∧ now s' = now s.
Proof.
  unfold createOrderLine.
  destruct (find_product products (Item.productId item)) as [p|] eqn:Hfind;
    [|discriminate].
  intros (u & s1 & Hdec & H)%bind_Ok.
  apply bind_Ok in H as (created & s2 & Hcreate & Hret).
  unfold product_update_stock_decrement in Hdec.
  destruct (product s !! p.1) as [p0|] eqn:Hp0; [|discriminate].
  injection Hdec as _ <-.
  unfold orderItem_create in Hcreate. simpl in Hcreate.
  destruct (orderItem s !! orderItem_seq s) eqn:Hfresh; [discriminate|].
  injection Hcreate as <- <-.
  injection Hret as <- <-.
  exists p, p0. simpl. repeat split; reflexivity || assumption.
Qed.

Lemma createOrderLines_Ok orderId products items :
  ∀ s outs s',
    mapM (createOrderLine orderId products) items s = (Ok outs, s') →
    order s' = order s ∧ user s' = user s ∧
    order_seq s' = order_seq s ∧ now s' = now s ∧
    (∀ k r, orderItem s !! k = Some r → orderItem s' !! k = Some r) ∧
    Forall (fun out =>
              orderItem s' !! ItemOut.id out = Some (item_row orderId out))
           outs ∧
    Forall2 (line_of products) items outs.
Proof.
  induction items as [|item items IH]; intros s outs s' H; simpl in H.
  - injection H as <- <-. repeat split; auto.
  - apply bind_Ok in H as (out & s1 & Hline & H).
    apply bind_Ok in H as (outs' & s2 & Hrest & Hret).
    injection Hret as <- <-.
    apply createOrderLine_Ok in Hline
      as (p & p0 & Hfind & Hout & Hfresh & Hitems & _ & _ & Ho & Hu & Hs & Hn).
    apply IH in Hrest as (Ho' & Hu' & Hs' & Hn' & Hkeep & Hall & Hlines).
    repeat split; try congruence.
    + intros k r Hk. apply Hkeep. rewrite Hitems.
      rewrite lookup_insert_ne; [done|]. congruence.
    + constructor; [|done].
      apply Hkeep. rewrite Hitems.
      replace (ItemOut.id out) with (orderItem_seq s) by (by subst out).
      apply lookup_insert_eq.
    + constructor; [|done].
      exists p. subst out. simpl. auto.
Qed.

Lemma createOrderTx_Ok jwt items products s r s' :
  createOrderTx jwt items products s = (Ok r, s') →
  OrderResponse.id r = order_seq s ∧
  order s !! order_seq s = None ∧
  OrderResponse.totalPrice r =
    Order_totalPrice_default + reduce_totalPrice (OrderResponse.items r) ∧
  OrderResponse.points r =
    reduce_totalPrice (OrderResponse.items r) `div` 1000 ∧
  order s' =
    <[order_seq s := Order.mk (jwt_id jwt) (OrderResponse.totalPrice r)
                       (now s)]> (order s) ∧
  (∃ u, user s !! jwt_id jwt = Some u ∧
        user s' =
          <[jwt_id jwt := User.mk (User.email u)
                             (User.point u + OrderResponse.points r)]>
            (user s)) ∧
  Forall (fun out =>
            orderItem s' !! ItemOut.id out
            = Some (item_row (OrderResponse.id r) out))
         (OrderResponse.items r) ∧
  Forall2 (line_of products) items (OrderResponse.items r).
Proof.
  unfold createOrderTx.
  intros (newOrder & s1 & Hcreate & H)%bind_Ok.
  apply bind_Ok in H as (orderItems & s2 & Hlines & H).
  apply bind_Ok in H as (updated & s3 & Hupd & H).
  apply bind_Ok in H as (u' & s4 & Huser & Hret).
  injection Hret as <- <-.
  unfold order_create in Hcreate. simpl in Hcreate.
  destruct (order s !! order_seq s) eqn:Hfresh; [discriminate|].
  injection Hcreate as <- <-. simpl in *.
  apply createOrderLines_Ok in Hlines
    as (Ho & Hu & _ & _ & _ & Hall & Hlines). simpl in *.
  unfold order_update_totalPrice_increment in Hupd.
  rewrite Ho, lookup_insert_eq in Hupd.
  injection Hupd as <- <-. simpl in *.
  unfold user_update_point_increment in Huser. simpl in Huser.
  destruct (user s2 !! jwt_id jwt) as [u|] eqn:Hlook; [|discriminate].
  injection Huser as _ <-. simpl.
  repeat split; try done.
  - by rewrite insert_insert_eq.
  - exists u. by rewrite <- Hu.
Qed.

Lemma createOrderAt_Ok read jwt body s r s' :
  createOrderAt read jwt body s = (Ok r, s') →
  ∃ items,
    orderSchema body = Some items ∧
    let products := product_findMany_in (map Item.productId items) read in
    length products = length items ∧
    stock_check products items = None ∧
    createOrderTx jwt items products s = (Ok r, s').
Proof.
  unfold createOrderAt.
  destruct (orderSchema body) as [items|]; [|discriminate].
  case_bool_decide as Hlen; [discriminate|].
  destruct (stock_check _ items) eqn:Hstock; [discriminate|].
  intros H%transaction_Ok. exists items. simpl.
  rewrite length_map in Hlen.
  repeat split; [|done..].
  destruct (decide (length (product_findMany_in (map Item.productId items) read)
                    = length items)); [done|]. by destruct Hlen.
Qed.

(** Every way of failing leaves the rows as they were. *)
Lemma createOrderAt_Err read jwt body s e s' :
  createOrderAt read jwt body s = (Err e, s') → tables s' = tables s.
Proof.
  unfold createOrderAt, throw.
  destruct (orderSchema body) as [items|]; [|thrown].
  case_bool_decide; [thrown|].
  destruct (stock_check _ items); [thrown|].
  by intros [? _]%transaction_Err.
Qed.

(** What [findMany] returned is what the read-time store held. *)
Lemma find_product_findMany ids read productId p :
  find_product (product_findMany_in ids read) productId = Some p →
  p.1 = productId ∧ productId ∈ ids ∧
  product read !! productId = Some p.2 ∧ Product.deletedAt p.2 = None.
Proof.
  unfold find_product, product_findMany_in.
  intros [Hin Heq]%find_some.
  apply bool_decide_eq_true in Heq.
  apply list_elem_of_In, list_elem_of_filter in Hin as [[Hids Hdel] Hin].
  destruct p as [k v]; simpl in *. subst k.
  apply elem_of_map_to_list in Hin. auto.
Qed.

(** ** Order placement: totals, points, atomicity, price snapshot *)

(** C1. Whenever createOrder succeeds, the total price of the order it
    returns, which is also the total price of the order row it stored, is
    the sum of the line totals of the order items it created; each of these
    items is stored under the new order with a line total equal to its unit
    price times its quantity, and there is one item per request line, in
    input order. *)
Theorem createOrder_total_consistency read jwt body s r s' :
  createOrderAt read jwt body s = (Ok r, s') →
  OrderResponse.totalPrice r
  = sumZ (ItemOut.totalPrice <$> OrderResponse.items r) ∧
  Order.totalPrice <$> order s' !! OrderResponse.id r
  = Some (OrderResponse.totalPrice r) ∧
  Forall (fun out =>
            ItemOut.totalPrice out
            = ItemOut.unitPrice out * ItemOut.quantity out ∧
            orderItem s' !! ItemOut.id out
            = Some (item_row (OrderResponse.id r) out))
         (OrderResponse.items r) ∧
  ∃ items,
    orderSchema body = Some items ∧
    Forall2 (fun item out =>
               ItemOut.productId out = Item.productId item ∧
               ItemOut.quantity out = Item.quantity item)
            items (OrderResponse.items r).
Proof.
  intros (items & Hparse & _ & _ & Htx)%createOrderAt_Ok.
  apply createOrderTx_Ok in Htx
    as (Hid & _ & Htotal & _ & Horder & _ & Hstored & Hlines).
  split; [|split; [|split]].
  - rewrite Htotal, reduce_totalPrice_sum. unfold Order_totalPrice_default.
    lia.
  - rewrite Horder, Hid, lookup_insert_eq. done.
  - rewrite Forall_forall in Hstored. apply Forall_forall.
    intros out Hout. split; [|by apply Hstored].
    apply list_elem_of_lookup in Hout as [i Hi].
    destruct (Forall2_lookup_r _ _ _ _ _ Hlines Hi)
      as (item & _ & p & _ & _ & -> & -> & ->).
    done.
  - exists items. split; [done|].
    eapply Forall2_impl; [exact Hlines|].
    intros item out (p & Hfind & -> & -> & _). split; [|done].
    by apply find_product_findMany in Hfind as [-> _].
Qed.

Lemma createOrder_total_consistency_witness :
  createOrderAt Scenario.s0 Scenario.U Scenario.body Scenario.s0
  = (Ok Scenario.response, Scenario.s1) ∧
  OrderResponse.totalPrice Scenario.response = 1200 + (1500 + 0) ∧
  Order.totalPrice <$> order Scenario.s1 !! 1 = Some 2700.
Proof.
  assert (createOrderAt Scenario.s0 Scenario.U Scenario.body Scenario.s0
          = (Ok Scenario.response, Scenario.s1)) as H
    by (vm_compute; reflexivity).
  split; [exact H|].
  destruct (createOrder_total_consistency _ _ _ _ _ _ H) as (H1 & H2 & _).
  split; [exact H1 | exact H2].
Defined.



(** C4. Whenever createOrder fails, be it before the transaction or at any
    step inside it, the caller gets that one error and the product, user,
    order and order item tables are exactly what they were: no order row, no
    order item row, no stock decrement and no point credit of the attempt
    remains. *)
Theorem createOrder_atomic read jwt body s e s' :
  createOrderAt read jwt body s = (Err e, s') →
  product s' = product s ∧ user s' = user s ∧
  order s' = order s ∧ orderItem s' = orderItem s.
Proof.
  intros H%createOrderAt_Err. unfold tables in H.
  injection H as -> -> -> ->. done.
Qed.

(** The second line's stock decrement fails after the order row, the first
    decrement and the first order item were written. *)
Example createOrderTx_partial_writes :
  let products := product_findMany_in [1; 2] Scenario.s0 in
  let run := createOrderTx Scenario.U [Item.mk 1 2; Item.mk 2 1] products
               Scenario.s0_without_B in
  run.1 = Err RecordNotFound ∧
  Order.userId <$> order run.2 !! 1 = Some 7 ∧
  OrderItem.quantity <$> orderItem run.2 !! 1 = Some 2 ∧
  Product.stock <$> product run.2 !! 1 = Some 3.
Proof. vm_compute. auto. Qed.

Lemma createOrder_atomic_witness :
  (createOrderAt Scenario.s0 Scenario.U Scenario.body Scenario.s0_without_B).1
  = Err RecordNotFound ∧
  let s' :=
    (createOrderAt Scenario.s0 Scenario.U Scenario.body
       Scenario.s0_without_B).2 in
  product s' = product Scenario.s0_without_B ∧
  user s' = user Scenario.s0_without_B ∧
  order s' = order Scenario.s0_without_B ∧
  orderItem s' = orderItem Scenario.s0_without_B.
Proof.
  split; [vm_compute; reflexivity|].
  apply (createOrder_atomic Scenario.s0 Scenario.U Scenario.body
           Scenario.s0_without_B RecordNotFound).
  vm_compute. reflexivity.
Defined.

(** C7. Every order item that createOrder creates carries, as its unit
    price, the price the product had in the store that validation read, and
    a line total of that price times the quantity, whatever the product
    table (prices included) has become by the time the transaction runs; a
    later product update leaves the order item table untouched. *)
Theorem createOrder_unitPrice_snapshot read jwt body s r s' :
  createOrderAt read jwt body s = (Ok r, s') →
  Forall (fun out =>
            ∃ p, product read !! ItemOut.productId out = Some p ∧
                 ItemOut.unitPrice out = Product.price p ∧
                 ItemOut.totalPrice out
                 = Product.price p * ItemOut.quantity out ∧
                 orderItem s' !! ItemOut.id out
                 = Some (item_row (OrderResponse.id r) out))
         (OrderResponse.items r) ∧
  ∀ id name price stock,
    orderItem (product_update id name price stock s').2 = orderItem s'.
Proof.
  intros (items & _ & _ & _ & Htx)%createOrderAt_Ok.
  apply createOrderTx_Ok in Htx as (_ & _ & _ & _ & _ & _ & Hstored & Hlines).
  split.
  - rewrite Forall_forall in Hstored. apply Forall_forall.
    intros out Hout.
    apply list_elem_of_lookup in Hout as Hi. destruct Hi as [i Hi].
    destruct (Forall2_lookup_r _ _ _ _ _ Hlines Hi)
      as (item & _ & p & Hfind & Hpid & Hq & Hunit & Htot).
    apply find_product_findMany in Hfind as (Hkey & _ & Hread & _).
    exists p.2. rewrite Hpid, Hkey, Hunit, Htot, Hq. auto.
  - intros id name price stock. unfold product_update.
    by destruct (product s' !! id).
Qed.

Lemma createOrder_unitPrice_snapshot_witness :
  Product.price <$> product Scenario.s0 !! 1 = Some 600 ∧
  Product.price <$> product Scenario.s0_repriced !! 1 = Some 900 ∧
  ∃ r s',
    createOrderAt Scenario.s0 Scenario.U Scenario.body Scenario.s0_repriced
    = (Ok r, s') ∧
    ItemOut.unitPrice <$> OrderResponse.items r = [600; 1500] ∧
    Forall (fun out =>
              ∃ p, product Scenario.s0 !! ItemOut.productId out = Some p ∧
                   ItemOut.unitPrice out = Product.price p ∧
                   ItemOut.totalPrice out
                   = Product.price p * ItemOut.quantity out ∧
                   orderItem s' !! ItemOut.id out
                   = Some (item_row (OrderResponse.id r) out))
           (OrderResponse.items r).
Proof.
  split; [vm_compute; reflexivity|]. split; [vm_compute; reflexivity|].
  eexists _, _.
  assert (createOrderAt Scenario.s0 Scenario.U Scenario.body
            Scenario.s0_repriced
          = (Ok Scenario.response,
             (createOrderAt Scenario.s0 Scenario.U Scenario.body
                Scenario.s0_repriced).2)) as H
    by (vm_compute; reflexivity).
  split; [exact H|]. split; [reflexivity|].
  exact (proj1 (createOrder_unitPrice_snapshot _ _ _ _ _ _ H)).
Defined.

(** ** The not-found check *)

Lemma findMany_keys ids read :
  NoDup (product_findMany_in ids read).*1 ∧
  ∀ k, k ∈ (product_findMany_in ids read).*1 ↔ k ∈ ids ∧ resolves read k.
Proof.
  unfold product_findMany_in. split.
  - apply (sublist_NoDup _ (map_to_list (product read)).*1).
    + apply NoDup_fst_map_to_list.
    + apply fmap_sublist, sublist_filter.
  - intros k. rewrite list_elem_of_fmap. split.
    + intros ([k' p] & -> & [[Hids Hdel] Hin]%list_elem_of_filter).
      simpl in *. apply elem_of_map_to_list in Hin.
      split; [done|]. by exists p.
    + intros [Hids (p & Hp & Hdel)]. exists (k, p). split; [done|].
      apply list_elem_of_filter. split; [done|].
      by apply elem_of_map_to_list.
Qed.

(** No more products are resolved than distinct ids were asked for. *)
Lemma findMany_length_le ids read :
  (length (product_findMany_in ids read) ≤ length (remove_dups ids))%nat.
Proof.
  destruct (findMany_keys ids read) as [Hnodup Hkeys].
  rewrite <- (length_fmap fst). apply submseteq_length.
  apply NoDup_submseteq; [done|].
  intros k [Hk _]%Hkeys. by apply elem_of_remove_dups.
Qed.

(** The check [products.length !== productIds.length] lets a request through
    exactly when no line repeats the product of another and every line's
    product resolves. *)
Lemma findMany_length_lines ids read :
  length (product_findMany_in ids read) = length ids ↔
  NoDup ids ∧ ∀ k, k ∈ ids → resolves read k.
Proof.
  destruct (findMany_keys ids read) as [Hnodup Hkeys]. split.
  - intros Hlen.
    assert ((product_findMany_in ids read).*1 ≡ₚ ids) as Hperm.
    { apply submseteq_length_Permutation.
      - apply NoDup_submseteq; [done|]. by intros k [? _]%Hkeys.
      - rewrite length_fmap. lia. }
    split.
    + by rewrite <- Hperm.
    + intros k Hk. rewrite <- Hperm in Hk. by apply Hkeys in Hk as [_ ?].
  - intros [Hids Hall]. rewrite <- (length_fmap fst).
    apply Permutation_length, NoDup_Permutation; [done..|].
    intros k. rewrite Hkeys.
    split; [by intros [? _] | intros ?; split; [done | by apply Hall]].
Qed.

Lemma find_product_key products productId p :
  find_product products productId = Some p → p.1 = productId.
Proof.
  unfold find_product. intros [_ Heq]%find_some.
  by apply bool_decide_eq_true in Heq.
Qed.

Lemma find_product_resolved ids read k :
  k ∈ ids → resolves read k →
  ∃ p, find_product (product_findMany_in ids read) k = Some (k, p) ∧
       product read !! k = Some p.
Proof.
  intros Hk Hres.
  destruct (find_product (product_findMany_in ids read) k) as [[k' p]|] eqn:Hfind.
  - apply find_product_findMany in Hfind as Hp. simpl in Hp.
    destruct Hp as (-> & _ & Hp & _). eauto.
  - exfalso. unfold find_product in Hfind.
    assert (k ∈ (product_findMany_in ids read).*1) as Hin
      by by apply findMany_keys.
    apply list_elem_of_fmap in Hin as ([k' p] & -> & Hin).
    apply list_elem_of_In in Hin.
    pose proof (find_none _ _ Hfind _ Hin) as Hno. simpl in Hno.
    by apply bool_decide_eq_false in Hno.
Qed.

(** ** The stock check *)

Lemma stock_check_None products items :
  stock_check products items = None →
  ∀ item p, item ∈ items →
            find_product products (Item.productId item) = Some p →
            Item.quantity item ≤ Product.stock p.2.
Proof.
  induction items as [|i items IH]; intros Hcheck item p Hin Hfind.
  - by apply elem_of_nil in Hin.
  - simpl in Hcheck.
    destruct (find_product products (Item.productId i)) as [q|] eqn:Hq.
    + case_bool_decide as Hlt; [discriminate|].
      apply elem_of_cons in Hin as [->|Hin]; [|by eapply IH].
      rewrite Hq in Hfind. injection Hfind as <-. lia.
    + apply elem_of_cons in Hin as [->|Hin]; [|by eapply IH]. congruence.
Qed.



(** Errors raised inside the transaction come from the client, not from the
    controller. *)
Lemma createOrderLine_Err orderId products item s e s' :
  createOrderLine orderId products item s = (Err e, s') →
  ∀ status message, e ≠ AppError status message.
Proof.
  unfold createOrderLine, throw.
  destruct (find_product products (Item.productId item)) as [p|].
  - intros [H|(u & s1 & _ & [H|(c & s2 & _ & H)]%bind_Err)]%bind_Err.
    + unfold product_update_stock_decrement in H.
      destruct (product s !! p.1); [discriminate|].
      by injection H as <- _.
    + unfold orderItem_create in H. simpl in H.
      destruct (orderItem s1 !! orderItem_seq s1); [|discriminate].
      by injection H as <- _.
    + discriminate.
  - by intros [= <- _].
Qed.

Lemma createOrderLines_Err orderId products items :
  ∀ s e s',
    mapM (createOrderLine orderId products) items s = (Err e, s') →
    ∀ status message, e ≠ AppError status message.
Proof.
  induction items as [|item items IH]; intros s e s' H; simpl in H.
  - discriminate.
  - apply bind_Err in H as [H|(out & s1 & _ & H)].
    + by eapply createOrderLine_Err.
    + apply bind_Err in H as [H|(outs & s2 & _ & H)]; [|discriminate].
      by eapply IH.
Qed.

Lemma createOrderTx_Err jwt items products s e s' :
  createOrderTx jwt items products s = (Err e, s') →
  ∀ status message, e ≠ AppError status message.
Proof.
  unfold createOrderTx.
  intros [H|(newOrder & s1 & _ & H)]%bind_Err.
  { unfold order_create in H. simpl in H.
    destruct (order s !! order_seq s); [|discriminate].
    by injection H as <- _. }
  apply bind_Err in H as [H|(orderItems & s2 & _ & H)].
  { by eapply createOrderLines_Err. }
  apply bind_Err in H as [H|(updated & s3 & _ & H)].
  { unfold order_update_totalPrice_increment in H.
    destruct (order s2 !! newOrder.1); [discriminate|].
    by injection H as <- _. }
  apply bind_Err in H as [H|(u & s4 & _ & H)]; [|discriminate].
  unfold user_update_point_increment in H.
  destruct (user s3 !! jwt_id jwt); [discriminate|].
  by injection H as <- _.
Qed.

Lemma stock_check_message products items e :
  stock_check products items = Some e →
  e ≠ AppError 400 "One or more products not found".
Proof.
  induction items as [|i items IH]; simpl; [discriminate|].
  destruct (find_product products (Item.productId i)); [|done].
  case_bool_decide; [|done]. intros [= <-]. discriminate.
Qed.

(** In this embedding, where [findMany] takes any list of ids: a request
    that parses is rejected with "One or more products not found" exactly
    when some line's product does not resolve (missing or soft-deleted in
    the store that was read) or some line repeats the product of another
    line. *)
Lemma createOrderAt_not_found_iff read jwt body items s :
  orderSchema body = Some items →
  (∃ s', createOrderAt read jwt body s
         = (Err (AppError 400 "One or more products not found"), s')) ↔
  ¬ (NoDup (map Item.productId items) ∧
     ∀ k, k ∈ map Item.productId items → resolves read k).
Proof.
  intros Hparse. unfold createOrderAt, throw. rewrite Hparse.
  rewrite <- findMany_length_lines.
  case_bool_decide as Hlen.
  - split; [done|]. eauto.
  - split; [|done]. intros [s' H]. exfalso.
    destruct (stock_check _ items) as [e|] eqn:Hcheck.
    + apply stock_check_message in Hcheck. congruence.
    + unfold transaction in H.
      destruct (createOrderTx _ _ _ s) as [[r|e] s1] eqn:Htx; [discriminate|].
      injection H as -> _. by eapply createOrderTx_Err in Htx.
Qed.

(** X1. For a request that parses and whose product ids and quantities are
    within the INTEGER range, createOrder answers 400 "One or more products
    not found", and writes nothing, exactly when some line's product does
    not resolve (missing or soft-deleted in the store that findMany read) or
    some line repeats the product of another line. *)
Theorem createOrder_not_found_in_range read jwt body items s :
  orderSchema body = Some items →
  in_range items →
  createOrderAt read jwt body s
  = (Err (AppError 400 "One or more products not found"), s) ↔
  ¬ (NoDup (map Item.productId items) ∧
     ∀ k, k ∈ map Item.productId items → resolves read k).
Proof.
  intros Hparse _. split.
  - intros H. apply (createOrderAt_not_found_iff read jwt body items s Hparse).
    by exists s.
  - intros H. unfold createOrderAt, throw. rewrite Hparse.
    rewrite bool_decide_eq_true_2; [done|].
    by rewrite findMany_length_lines.
Qed.

Lemma createOrder_not_found_in_range_witness :
  orderSchema Scenario.repeated = Some [Item.mk 1 1; Item.mk 1 1] ∧
  in_range [Item.mk 1 1; Item.mk 1 1] ∧
  (createOrderAt Scenario.s0 Scenario.U Scenario.repeated Scenario.s0
   = (Err (AppError 400 "One or more products not found"), Scenario.s0) ↔
   ¬ (NoDup [1; 1] ∧ ∀ k, k ∈ [1; 1] → resolves Scenario.s0 k)).
Proof.
  assert (in_range [Item.mk 1 1; Item.mk 1 1]) as Hrange.
  { unfold in_range, INT4_MAX. repeat constructor; simpl; lia. }
  split; [reflexivity|]. split; [exact Hrange|].
  apply (createOrder_not_found_in_range Scenario.s0 Scenario.U
           Scenario.repeated [Item.mk 1 1; Item.mk 1 1] Scenario.s0).
  - reflexivity.
  - exact Hrange.
Defined.

(** ** Stock after the transaction *)

Lemma ordered_cons k i items :
  ordered k (i :: items)
  = (if decide (Item.productId i = k) then Item.quantity i else 0)
    + ordered k items.
Proof.
  unfold ordered. case_decide.
  - by rewrite filter_cons_True.
  - by rewrite filter_cons_False.
Qed.

Lemma ordered_absent k items :
  k ∉ map Item.productId items → ordered k items = 0.
Proof.
  induction items as [|i items IH]; [done|]. simpl.
  intros [Hne Hrest]%not_elem_of_cons.
  rewrite ordered_cons, decide_False, IH by done. done.
Qed.

Lemma ordered_NoDup items item :
  NoDup (map Item.productId items) → item ∈ items →
  ordered (Item.productId item) items = Item.quantity item.
Proof.
  induction items as [|i items IH]; intros Hnodup Hin.
  - by apply elem_of_nil in Hin.
  - simpl in Hnodup. apply NoDup_cons in Hnodup as [Hfresh Hnodup].
    rewrite ordered_cons.
    apply elem_of_cons in Hin as [->|Hin].
    + rewrite decide_True, ordered_absent by done. lia.
    + rewrite decide_False, IH by (try done; intros Heq; apply Hfresh;
        rewrite Heq; by apply (list_elem_of_fmap_2 Item.productId)).
      lia.
Qed.

(** The lines take off each product what the request asks of it, and change
    nothing else of the product table. *)
Lemma createOrderLines_stock orderId products items :
  ∀ s outs s',
    mapM (createOrderLine orderId products) items s = (Ok outs, s') →
    ∀ k, product s' !! k = take_stock (ordered k items) <$> product s !! k.
Proof.
  induction items as [|item items IH]; intros s outs s' H k; simpl in H.
  - injection H as _ <-. destruct (product s !! k) as [[]|]; [|done].
    unfold take_stock, ordered, sumZ. simpl. by rewrite Z.sub_0_r.
  - apply bind_Ok in H as (out & s1 & Hline & H).
    apply bind_Ok in H as (outs' & s2 & Hrest & Hret).
    injection Hret as _ <-.
    apply createOrderLine_Ok in Hline
      as (p & p0 & Hfind & _ & _ & _ & Hp0 & Hprod & _).
    apply find_product_key in Hfind.
    rewrite (IH _ _ _ Hrest k), Hprod, ordered_cons.
    destruct (decide (Item.productId item = k)) as [<-|Hne].
    + rewrite Hfind, lookup_insert_eq, <- Hfind, Hp0. simpl.
      unfold take_stock. simpl. do 2 f_equal. lia.
    + rewrite Hfind, lookup_insert_ne by done. by rewrite Z.add_0_l.
Qed.

Lemma createOrderTx_stock jwt items products s r s' :
  createOrderTx jwt items products s = (Ok r, s') →
  ∀ k, product s' !! k = take_stock (ordered k items) <$> product s !! k.
Proof.
  unfold createOrderTx.
  intros (newOrder & s1 & Hcreate & H)%bind_Ok k.
  apply bind_Ok in H as (orderItems & s2 & Hlines & H).
  apply bind_Ok in H as (updated & s3 & Hupd & H).
  apply bind_Ok in H as (u' & s4 & Huser & Hret).
  injection Hret as _ <-.
  unfold order_create in Hcreate. simpl in Hcreate.
  destruct (order s !! order_seq s); [discriminate|].
  injection Hcreate as _ <-.
  apply createOrderLines_stock with (k := k) in Hlines. simpl in Hlines.
  unfold order_update_totalPrice_increment in Hupd.
  destruct (order s2 !! newOrder.1); [|discriminate].
  injection Hupd as _ <-.
  unfold user_update_point_increment in Huser. simpl in Huser.
  destruct (user s2 !! jwt_id jwt); [|discriminate].
  by injection Huser as _ <-.
Qed.

(** X3. An order that nothing interleaves with leaves no stock below zero
    that was not below zero before: every product it touches had, by the
    stock check, at least the quantity that its one line takes. *)
Lemma createOrder_alone_keeps_stock jwt body s r s' :
  createOrder jwt body s = (Ok r, s') →
  ∀ k p', product s' !! k = Some p' →
          ∃ p, product s !! k = Some p ∧
               (0 ≤ Product.stock p → 0 ≤ Product.stock p').
Proof.
  unfold createOrder.
  intros (items & _ & Hlen & Hcheck & Htx)%createOrderAt_Ok k p' Hp'.
  simpl in Hlen. rewrite <- (length_map Item.productId items) in Hlen.
  apply findMany_length_lines in Hlen as [Hnodup Hres].
  rewrite (createOrderTx_stock _ _ _ _ _ _ Htx k) in Hp'.
  destruct (product s !! k) as [p|] eqn:Hp; [|discriminate].
  injection Hp' as <-. exists p. split; [done|]. simpl.
  destruct (decide (k ∈ map Item.productId items)) as [Hk|Hk].
  - apply (list_elem_of_fmap (A:=Item.t)) in Hk as (item & -> & Hitem).
    rewrite ordered_NoDup by done.
    destruct (find_product_resolved (map Item.productId items) s
                (Item.productId item)) as (p0 & Hfind & Hp0).
    { by apply (list_elem_of_fmap_2 Item.productId). }
    { apply Hres. by apply (list_elem_of_fmap_2 Item.productId). }
    pose proof (stock_check_None _ _ Hcheck item _ Hitem Hfind) as Hle.
    simpl in Hle. assert (p0 = p) as -> by congruence. lia.
  - rewrite ordered_absent by done. lia.
Qed.

(** ** Order placement: where the code departs from its description *)

(** C3. The stock decrement of the transaction is not conditional on the
    stock that is left when it runs.  Two buyers each ask for 3 of the 5
    units of product A and both are validated against the stock of 5; the
    first order commits and leaves 2; the second order's transaction then
    runs on that store, is committed as well, and leaves a stock of -1. *)
Theorem createOrder_oversells :
  let s0 := Scenario.s0_two_buyers in
  let first := createOrderAt s0 Scenario.U Scenario.three_of_A s0 in
  let second := createOrderAt s0 Scenario.V Scenario.three_of_A first.2 in
  Product.stock <$> product s0 !! 1 = Some 5 ∧
  first.1
  = Ok (OrderResponse.mk 1 7 1800 1000 1 [ItemOut.mk 1 1 3 600 1800]) ∧
  Product.stock <$> product first.2 !! 1 = Some 2 ∧
  second.1
  = Ok (OrderResponse.mk 2 8 1800 1000 1 [ItemOut.mk 2 1 3 600 1800]) ∧
  Product.stock <$> product second.2 !! 1 = Some (-1).
Proof. vm_compute. auto 6. Qed.

(** C5. A request that names product 1 on two lines, product 1 being in the
    store and not deleted, is rejected with "One or more products not
    found": one product is resolved, one distinct id was requested, but the
    check compares the resolved count with the number of lines. *)
Theorem createOrder_repeated_productId_not_found :
  let ids := [1; 1] in
  orderSchema Scenario.repeated = Some [Item.mk 1 1; Item.mk 1 1] ∧
  length (product_findMany_in ids Scenario.s0) = length (remove_dups ids) ∧
  createOrder Scenario.U Scenario.repeated Scenario.s0
  = (Err (AppError 400 "One or more products not found"), Scenario.s0).
Proof. vm_compute. auto. Qed.

(** C6. A request whose first line asks for 10 units of product A (stock 5)
    and whose second line names product A again: every distinct product id
    resolves and the stock check on its own would name product A, yet the
    request is rejected with "One or more products not found" and not with
    the insufficient stock error. *)
Theorem createOrder_repeated_productId_hides_stock_error :
  let ids := [1; 1] in
  let items := [Item.mk 1 10; Item.mk 1 1] in
  orderSchema Scenario.too_many_repeated = Some items ∧
  length (product_findMany_in ids Scenario.s0) = length (remove_dups ids) ∧
  stock_check (product_findMany_in ids Scenario.s0) items
  = Some (AppError 400 "Not enough stock for product A") ∧
  createOrder Scenario.U Scenario.too_many_repeated Scenario.s0
  = (Err (AppError 400 "One or more products not found"), Scenario.s0).
Proof. vm_compute. auto. Qed.

(** ** Point transfer *)

Lemma z_number_int_positive_Some q n :
  z_number_int_positive q = Some n →
  0 < n ∧ Qeq q (inject_Z n).
Proof.
  unfold z_number_int_positive. case_decide as H; [|discriminate].
  destruct H as [Hmod Hpos]. intros [= <-].
  pose proof (Z.div_mod (Qnum q) (Z.pos (Qden q)) ltac:(lia)) as Hdm.
  rewrite Hmod, Z.add_0_r in Hdm.
  split.
  - nia.
  - unfold Qeq. simpl. lia.
Qed.

(** What a transfer that went through was checked against (the rows of
    [read]) and what it wrote (over the rows of [s]). *)
Lemma transferPointAt_Ok read jwt body s r s' :
  transferPointAt read jwt body s = (Ok r, s') →
  ∃ data sender receiver sender_now receiver_now,
    transferPointSchema body = Some data ∧
    0 < Transfer.amount data ∧
    user read !! jwt_id jwt = Some sender ∧
    user read !! Transfer.receiverId data = Some receiver ∧
    jwt_id jwt ≠ Transfer.receiverId data ∧
    Transfer.amount data ≤ User.point sender ∧
    user s !! jwt_id jwt = Some sender_now ∧
    user s !! Transfer.receiverId data = Some receiver_now ∧
    let sender' :=
      User.mk (User.email sender_now)
              (User.point sender_now + - Transfer.amount data) in
    let receiver' :=
      User.mk (User.email receiver_now)
              (User.point receiver_now + Transfer.amount data) in
    r = TransferResponse.mk (jwt_id jwt, sender')
                            (Transfer.receiverId data, receiver') ∧
    user s' = <[Transfer.receiverId data := receiver']>
                (<[jwt_id jwt := sender']> (user s)) ∧
    product s' = product s ∧ order s' = order s ∧
    orderItem s' = orderItem s.
Proof.
  unfold transferPointAt, throw.
  destruct (transferPointSchema body) as [data|]; [|discriminate].
  case_bool_decide as Hamount; [discriminate|].
  unfold user_findUnique.
  destruct (user read !! jwt_id jwt) as [sender|] eqn:Hs; [|discriminate].
  destruct (user read !! Transfer.receiverId data) as [receiver|] eqn:Hr;
    [|discriminate].
  simpl. case_bool_decide as Hself; [discriminate|].
  case_bool_decide as Hbal; [discriminate|].
  intros H%transaction_Ok.
  apply bind_Ok in H as (us & s1 & Hdec & H).
  apply bind_Ok in H as (ur & s2 & Hinc & Hret).
  injection Hret as <- <-.
  unfold user_update_point_decrement, user_update_point_increment in Hdec.
  destruct (user s !! jwt_id jwt) as [sender_now|] eqn:Hs_now;
    [|discriminate].
  injection Hdec as <- <-.
  unfold user_update_point_increment in Hinc. simpl in Hinc.
  rewrite lookup_insert_ne in Hinc by done.
  destruct (user s !! Transfer.receiverId data) as [receiver_now|] eqn:Hr_now;
    [|discriminate].
  injection Hinc as <- <-.
  exists data, sender, receiver, sender_now, receiver_now. simpl.
  repeat split; try done; lia.
Qed.

(** A transfer that fails writes nothing, whether a check refused it or the
    batch failed and was rolled back. *)
Lemma transferPointAt_Err read jwt body s e s' :
  transferPointAt read jwt body s = (Err e, s') → tables s' = tables s.
Proof.
  unfold transferPointAt, throw.
  destruct (transferPointSchema body) as [data|]; [|thrown].
  case_bool_decide; [thrown|].
  destruct (user_findUnique (jwt_id jwt) read) as [sender|];
    [|thrown].
  destruct (user_findUnique (Transfer.receiverId data) read) as [receiver|];
    [|thrown].
  case_bool_decide; [thrown|].
  case_bool_decide; [thrown|].
  by intros [? _]%transaction_Err.
Qed.

Lemma transferPoint_Ok jwt body s r s' :
  transferPoint jwt body s = (Ok r, s') →
  ∃ data sender receiver,
    transferPointSchema body = Some data ∧
    0 < Transfer.amount data ∧
    user s !! jwt_id jwt = Some sender ∧
    user s !! Transfer.receiverId data = Some receiver ∧
    jwt_id jwt ≠ Transfer.receiverId data ∧
    Transfer.amount data ≤ User.point sender ∧
    let sender' :=
      User.mk (User.email sender)
              (User.point sender + - Transfer.amount data) in
    let receiver' :=
      User.mk (User.email receiver)
              (User.point receiver + Transfer.amount data) in
    r = TransferResponse.mk (jwt_id jwt, sender')
                            (Transfer.receiverId data, receiver') ∧
    user s' = <[Transfer.receiverId data := receiver']>
                (<[jwt_id jwt := sender']> (user s)) ∧
    product s' = product s ∧ order s' = order s ∧
    orderItem s' = orderItem s.
Proof.
  unfold transferPoint.
  intros (data & sender & receiver & sender_now & receiver_now & Hparse & Hpos
          & Hs & Hr & Hne & Hbal & Hs_now & Hr_now & H)%transferPointAt_Ok.
  rewrite Hs in Hs_now. injection Hs_now as <-.
  rewrite Hr in Hr_now. injection Hr_now as <-.
  by exists data, sender, receiver.
Qed.

(** A rejected transfer writes nothing. *)
Lemma transferPoint_Err jwt body s e s' :
  transferPoint jwt body s = (Err e, s') → tables s' = tables s.
Proof. apply transferPointAt_Err. Qed.

(** The batch is one transaction.  Its two updates, run outside one, leave
    the decrement behind when the increment fails; the controller's batch
    rolls it back.  Here V's row is gone by the time the batch runs. *)
Example transferPointAt_batch_rolled_back :
  let gone :=
    mkStore ∅ (<[7 := User.mk "u@example.com" 50]> ∅) ∅ ∅ 1 1 1000 in
  let batch :=
    let* updatedSender := user_update_point_decrement 7 20 in
    let* updatedReceiver := user_update_point_increment 8 20 in
    ret (TransferResponse.mk updatedSender updatedReceiver) in
  (batch gone).1 = Err RecordNotFound ∧
  User.point <$> user (batch gone).2 !! 7 = Some 30 ∧
  transferPointAt Scenario.bank Scenario.U (Scenario.transfer 8 20) gone
  = (Err RecordNotFound, gone).
Proof. vm_compute. auto. Qed.

(** C8. The balance that transferPoint holds the amount against is the one it
    read before its batch transaction was opened.  U holds 50 points and
    sends two requests to transfer 40 to V; both read the balance while it
    is 50.  The batch of the first commits and leaves U with 10 points.  The
    batch of the second then commits as well: a transfer of 40 goes through
    on a balance of 10. *)
Theorem transferPoint_stale_balance :
  let body := Scenario.transfer 8 40 in
  let first := transferPointAt Scenario.bank Scenario.U body Scenario.bank in
  let second := transferPointAt Scenario.bank Scenario.U body first.2 in
  User.point <$> user Scenario.bank !! 7 = Some 50 ∧
  first.1 = Ok (TransferResponse.mk (7, User.mk "u@example.com" 10)
                                    (8, User.mk "v@example.com" 45)) ∧
  User.point <$> user first.2 !! 7 = Some 10 ∧
  second.1 = Ok (TransferResponse.mk (7, User.mk "u@example.com" (-30))
                                     (8, User.mk "v@example.com" 85)).
Proof. vm_compute. auto. Qed.

(** C9. A transfer that went through can leave the sender's balance below
    zero.  U holds 50 points and V holds 5; two requests of U to transfer 30
    to V both read U's balance while it is 50, and both batches commit.  The
    points of the two still add up to 55, but U is left with -10. *)
Theorem transferPoint_overdraws :
  let body := Scenario.transfer 8 30 in
  let first := transferPointAt Scenario.bank Scenario.U body Scenario.bank in
  let second := transferPointAt Scenario.bank Scenario.U body first.2 in
  (∃ r1, first.1 = Ok r1) ∧ (∃ r2, second.1 = Ok r2) ∧
  User.point <$> user second.2 !! 7 = Some (-10) ∧
  User.point <$> user second.2 !! 8 = Some 65.
Proof. vm_compute. repeat split; eauto. Qed.

(** X27. Whatever commits between the reads of transferPoint and its batch: a
    transfer that goes through had a whole amount above zero, a receiver
    other than the caller and, when it was read, a caller balance of at
    least the amount.  Its batch takes the amount off the caller's row and
    adds it to the receiver's row as they are when the batch runs, leaves
    every other row as it is, and the response carries the two updated
    rows.  A transfer that fails, at a check or in the batch, writes
    nothing. *)
Theorem transferPointAt_effect read jwt body s res s' :
  transferPointAt read jwt body s = (res, s') →
  match res with
  | Ok r =>
      ∃ data sender sender_now receiver_now,
        transferPointSchema body = Some data ∧
        Qeq (TransferBody.amount body) (inject_Z (Transfer.amount data)) ∧
        0 < Transfer.amount data ∧
        jwt_id jwt ≠ Transfer.receiverId data ∧
        user read !! jwt_id jwt = Some sender ∧
        Transfer.amount data ≤ User.point sender ∧
        user s !! jwt_id jwt = Some sender_now ∧
        user s !! Transfer.receiverId data = Some receiver_now ∧
        let sender' :=
          User.mk (User.email sender_now)
                  (User.point sender_now - Transfer.amount data) in
        let receiver' :=
          User.mk (User.email receiver_now)
                  (User.point receiver_now + Transfer.amount data) in
        user s' !! jwt_id jwt = Some sender' ∧
        user s' !! Transfer.receiverId data = Some receiver' ∧
        (∀ k, k ≠ jwt_id jwt → k ≠ Transfer.receiverId data →
              user s' !! k = user s !! k) ∧
        product s' = product s ∧ order s' = order s ∧
        orderItem s' = orderItem s ∧
        r = TransferResponse.mk (jwt_id jwt, sender')
                                (Transfer.receiverId data, receiver')
  | Err e => tables s' = tables s
  end.
Proof.
  destruct res as [r|e]; intros H; [|by eapply transferPointAt_Err].
  apply transferPointAt_Ok in H
    as (data & sender & receiver & sender_now & receiver_now & Hparse & Hpos
        & Hs & Hr & Hne & Hbal & Hs_now & Hr_now & -> & Huser & ? & ? & ?).
  exists data, sender, sender_now, receiver_now.
  assert (Qeq (TransferBody.amount body) (inject_Z (Transfer.amount data)))
    as Hint.
  { unfold transferPointSchema in Hparse.
    destruct (z_number_int_positive (TransferBody.receiverId body));
      [|discriminate].
    destruct (z_number_int_positive (TransferBody.amount body)) as [a|] eqn:Ha;
      [|discriminate].
    injection Hparse as <-. simpl.
    by apply z_number_int_positive_Some in Ha as [_ ?]. }
  repeat split; try done.
  - rewrite Huser, lookup_insert_ne, lookup_insert_eq by done. done.
  - rewrite Huser, lookup_insert_eq. done.
  - intros k Hk1 Hk2. by rewrite Huser, !lookup_insert_ne.
Qed.

Lemma transferPointAt_effect_witness :
  (* U's balance was read as 50 and is 10 when the batch runs *)
  let now_ :=
    mkStore ∅ (<[7 := User.mk "u@example.com" 10]>
                 (<[8 := User.mk "v@example.com" 45]> ∅))
            ∅ ∅ 1 1 1000 in
  let run :=
    transferPointAt Scenario.bank Scenario.U (Scenario.transfer 8 40) now_ in
  user run.2 !! 7 = Some (User.mk "u@example.com" (-30)) ∧
  (* a transfer that is refused *)
  tables (transferPointAt Scenario.bank Scenario.U (Scenario.transfer 8 51)
            now_).2
  = tables now_.
Proof.
  intros now_ run. split; [vm_compute; reflexivity|].
  apply (transferPointAt_effect Scenario.bank Scenario.U
           (Scenario.transfer 8 51) now_
           (Err (AppError 400 "Insufficient points"))).
  vm_compute. reflexivity.
Defined.

(** A call that nothing interleaves with: a transfer that succeeds had a
    whole amount above zero, a receiver other than the sender, and a sender
    balance of at least the amount; its one transaction takes the amount off
    the sender, adds it to the receiver, and the response carries the two
    updated rows.  A transfer that is rejected, whatever the reason, leaves
    every row as it was. *)
Lemma transferPoint_alone_guarded jwt body s res s' :
  transferPoint jwt body s = (res, s') →
  match res with
  | Ok r =>
      ∃ data sender receiver,
        transferPointSchema body = Some data ∧
        Qeq (TransferBody.amount body) (inject_Z (Transfer.amount data)) ∧
        0 < Transfer.amount data ∧
        jwt_id jwt ≠ Transfer.receiverId data ∧
        user s !! jwt_id jwt = Some sender ∧
        user s !! Transfer.receiverId data = Some receiver ∧
        Transfer.amount data ≤ User.point sender ∧
        let sender' :=
          User.mk (User.email sender)
                  (User.point sender - Transfer.amount data) in
        let receiver' :=
          User.mk (User.email receiver)
                  (User.point receiver + Transfer.amount data) in
        user s' !! jwt_id jwt = Some sender' ∧
        user s' !! Transfer.receiverId data = Some receiver' ∧
        r = TransferResponse.mk (jwt_id jwt, sender')
                                (Transfer.receiverId data, receiver')
  | Err e =>
      product s' = product s ∧ user s' = user s ∧
      order s' = order s ∧ orderItem s' = orderItem s
  end.
Proof.
  destruct res as [r|e]; intros H.
  - apply transferPoint_Ok in H
      as (data & sender & receiver & Hparse & Hpos & Hs & Hr & Hne & Hbal
          & -> & Huser & _).
    exists data, sender, receiver.
    assert (Qeq (TransferBody.amount body) (inject_Z (Transfer.amount data)))
      as Hint.
    { unfold transferPointSchema in Hparse.
      destruct (z_number_int_positive (TransferBody.receiverId body));
        [|discriminate].
      destruct (z_number_int_positive (TransferBody.amount body)) as [a|] eqn:Ha;
        [|discriminate].
      injection Hparse as <-. simpl.
      by apply z_number_int_positive_Some in Ha as [_ ?]. }
    repeat split; try done.
    + rewrite Huser, lookup_insert_ne, lookup_insert_eq by done. done.
    + rewrite Huser, lookup_insert_eq. done.
  - apply transferPoint_Err in H. unfold tables in H.
    injection H as -> -> -> ->. done.
Qed.

(** A call that nothing interleaves with: a transfer that succeeds takes
    exactly the amount off the sender's balance and adds exactly the amount
    to the receiver's, so the two balances add up to what they added up to
    before; the sender's new balance is not negative; no other user row
    changes. *)
Lemma transferPoint_alone_conserves jwt body s r s' :
  transferPoint jwt body s = (Ok r, s') →
  ∃ data sender receiver sender' receiver',
    transferPointSchema body = Some data ∧
    user s !! jwt_id jwt = Some sender ∧
    user s !! Transfer.receiverId data = Some receiver ∧
    user s' !! jwt_id jwt = Some sender' ∧
    user s' !! Transfer.receiverId data = Some receiver' ∧
    User.point sender' = User.point sender - Transfer.amount data ∧
    User.point receiver' = User.point receiver + Transfer.amount data ∧
    User.point sender' + User.point receiver'
    = User.point sender + User.point receiver ∧
    0 ≤ User.point sender' ∧
    ∀ k, k ≠ jwt_id jwt → k ≠ Transfer.receiverId data →
         user s' !! k = user s !! k.
Proof.
  intros (data & sender & receiver & Hparse & Hpos & Hs & Hr & Hne & Hbal
          & _ & Huser & _)%transferPoint_Ok.
  eexists data, sender, receiver, _, _.
  split; [done|]. split; [done|]. split; [done|].
  split; [by rewrite Huser, lookup_insert_ne, lookup_insert_eq|].
  split; [by rewrite Huser, lookup_insert_eq|].
  simpl. repeat split; try lia.
  intros k Hk1 Hk2. by rewrite Huser, !lookup_insert_ne.
Qed.

(** ** Order listing *)

Lemma buildOrderWhere_userId uid minPrice maxPrice :
  buildOrderWhere (Some uid) minPrice maxPrice =
  OrderWhereInput.mk (Some uid)
    (match minPrice, maxPrice with
     | None, None => None
     | _, _ => Some (IntFilter.mk minPrice maxPrice)
     end)
    None.
Proof. by destruct minPrice, maxPrice. Qed.

Lemma order_matches_userId s uid minPrice maxPrice o :
  order_matches s (buildOrderWhere (Some uid) minPrice maxPrice) o = true ↔
  Order.userId o.2 = uid ∧
  IntFilter.matches (IntFilter.mk minPrice maxPrice) (Order.totalPrice o.2)
  = true.
Proof.
  rewrite buildOrderWhere_userId. unfold order_matches. simpl.
  rewrite andb_true_r, andb_true_iff, bool_decide_eq_true.
  by destruct minPrice, maxPrice.
Qed.

(** What [findMany] lists is among what [where] selects. *)
Lemma order_findMany_where w ob take_ skip_ s out :
  out ∈ order_findMany w ob take_ skip_ s →
  ∃ o, o ∈ order_where w s ∧ out = include_items s o.
Proof.
  unfold order_findMany.
  intros (o & -> & Ho)%list_elem_of_fmap.
  exists o. split; [|done].
  apply subseteq_take, subseteq_drop in Ho.
  by rewrite merge_sort_Permutation in Ho.
Qed.

(** C10. For a caller whose role is not ADMIN, whatever the page, limit,
    sortBy, minPrice and maxPrice of the query: every order that getOrders
    lists is an order row of the store whose userId is the caller's id; the
    total it reports is the number of rows selected, all of which have the
    caller's userId; and the rows selected under price filters are among
    those selected without, which are exactly the caller's orders. *)
Theorem getOrders_own_orders jwt query s :
  jwt_role jwt ≠ ADMIN →
  let res := getOrders jwt query s in
  let selected minPrice maxPrice :=
    order_where (buildOrderWhere (Some (jwt_id jwt)) minPrice maxPrice) s in
  Forall (fun out =>
            OrderWithItems.userId out = jwt_id jwt ∧
            ∃ row, order s !! OrderWithItems.id out = Some row ∧
                   Order.userId row = jwt_id jwt)
         (Meta.data res) ∧
  Meta.total res
  = Z.of_nat (length (selected (Query.minPrice query) (Query.maxPrice query))) ∧
  Forall (fun o => Order.userId o.2 = jwt_id jwt)
         (selected (Query.minPrice query) (Query.maxPrice query)) ∧
  (∀ o, o ∈ selected (Query.minPrice query) (Query.maxPrice query) →
        o ∈ selected None None) ∧
  Meta.total res ≤ Z.of_nat (length (selected None None)) ∧
  selected None None
  = filter (fun o => Order.userId o.2 = jwt_id jwt) (map_to_list (order s)).
Proof.
  intros Hrole res selected.
  assert (∀ minPrice maxPrice o,
            o ∈ selected minPrice maxPrice →
            Order.userId o.2 = jwt_id jwt ∧ o ∈ map_to_list (order s))
    as Hsel.
  { intros minPrice maxPrice o [Hm Ho]%list_elem_of_filter.
    by apply order_matches_userId in Hm as [? _]. }
  assert (selected None None
          = filter (fun o => Order.userId o.2 = jwt_id jwt)
                   (map_to_list (order s))) as Hall.
  { apply list_filter_iff. intros o.
    rewrite order_matches_userId. split; [by intros [? _] | by intros ?]. }
  assert (selected (Query.minPrice query) (Query.maxPrice query)
          `sublist_of` selected None None) as Hsub.
  { rewrite Hall. unfold selected, order_where.
    erewrite (list_filter_iff _
      (fun o => IntFilter.matches
                  (IntFilter.mk (Query.minPrice query) (Query.maxPrice query))
                  (Order.totalPrice o.2) = true ∧
                Order.userId o.2 = jwt_id jwt)).
    - rewrite <- list_filter_filter. apply sublist_filter.
    - intros o. rewrite order_matches_userId. tauto. }
  assert (res = paginationResponse
                  (paginationSchema_field 30 (Query.limit query))
                  (paginationSchema_field 1 (Query.page query))
                  (order_count
                     (buildOrderWhere (Some (jwt_id jwt))
                        (Query.minPrice query) (Query.maxPrice query)) s)
                  (order_findMany
                     (buildOrderWhere (Some (jwt_id jwt))
                        (Query.minPrice query) (Query.maxPrice query))
                     (buildOrderOrderBy (Query.sortBy query))
                     (paginationSchema_field 30 (Query.limit query))
                     ((paginationSchema_field 1 (Query.page query) - 1)
                      * paginationSchema_field 30 (Query.limit query)) s))
    as ->.
  { unfold res, getOrders. by rewrite bool_decide_eq_false_2. }
  simpl. repeat split.
  - apply Forall_forall. intros out Hout.
    apply order_findMany_where in Hout as (o & Ho & ->).
    apply Hsel in Ho as [Huid Ho]. simpl. split; [done|].
    exists o.2. split; [|done].
    destruct o as [k row]. by apply elem_of_map_to_list.
  - apply Forall_forall. intros o Ho. by apply Hsel in Ho as [? _].
  - intros o Ho. by eapply sublist_subseteq.
  - unfold order_count. apply inj_le. by apply sublist_length.
  - exact Hall.
Qed.

Lemma getOrders_own_orders_witness :
  let res :=
    getOrders Scenario.U (Query.mk (Some "totalPrice.asc") (Some 1000) None
                                   (Some 10) None)
              Scenario.ledger in
  Meta.total res = 1 ∧
  OrderWithItems.id <$> Meta.data res = [1] ∧
  Forall (fun out =>
            OrderWithItems.userId out = 7 ∧
            ∃ row, order Scenario.ledger !! OrderWithItems.id out = Some row ∧
                   Order.userId row = 7)
         (Meta.data res).
Proof.
  intros res.
  split; [vm_compute; reflexivity|]. split; [vm_compute; reflexivity|].
  refine (proj1 (getOrders_own_orders Scenario.U
                   (Query.mk (Some "totalPrice.asc") (Some 1000) None
                             (Some 10) None)
                   Scenario.ledger _)).
  intros H. discriminate H.
Defined.

(** * Further properties of the controllers *)


Lemma createOrder_alone_keeps_stock_witness :
  createOrder Scenario.U Scenario.body Scenario.s0
  = (Ok Scenario.response, Scenario.s1) ∧
  ∀ k p', product Scenario.s1 !! k = Some p' →
          ∃ p, product Scenario.s0 !! k = Some p ∧
               (0 ≤ Product.stock p → 0 ≤ Product.stock p').
Proof.
  assert (createOrder Scenario.U Scenario.body Scenario.s0
          = (Ok Scenario.response, Scenario.s1)) as H
    by (vm_compute; reflexivity).
  split; [exact H|].
  exact (createOrder_alone_keeps_stock _ _ _ _ _ H).
Defined.

(** ** What a request that parses looks like *)

Lemma orderSchema_item_Some r item :
  orderSchema_item r = Some item →
  0 < Item.productId item ∧ 0 < Item.quantity item.
Proof.
  unfold orderSchema_item.
  destruct (z_number_int_positive (RawItem.productId r)) as [pid|] eqn:Hpid;
    [|discriminate].
  apply z_number_int_positive_Some in Hpid as [Hpid _].
  destruct (RawItem.quantity r) as [q|].
  - destruct (z_number_int_positive q) as [n|] eqn:Hq; [|discriminate].
    apply z_number_int_positive_Some in Hq as [Hq _].
    by intros [= <-].
  - intros [= <-]. simpl. lia.
Qed.

Lemma orderSchema_items_Some rs :
  ∀ items, orderSchema_items rs = Some items →
           Forall2 (fun r item => orderSchema_item r = Some item) rs items.
Proof.
  induction rs as [|r rs IH]; intros items H; simpl in H.
  - injection H as <-. constructor.
  - destruct (orderSchema_item r) as [i|] eqn:Hi; [|discriminate].
    destruct (orderSchema_items rs) as [is'|]; [|discriminate].
    injection H as <-. constructor; [done|]. by apply IH.
Qed.

Lemma orderSchema_items_None rs :
  orderSchema_items rs = None ↔
  Exists (fun r => orderSchema_item r = None) rs.
Proof.
  induction rs as [|r rs IH]; simpl.
  - split; [discriminate|]. by intros ?%Exists_nil.
  - rewrite Exists_cons, <- IH.
    destruct (orderSchema_item r) as [i|], (orderSchema_items rs) as [is'|];
      split; try done; try (by intros [?|?]); auto.
Qed.

Lemma orderSchema_Some body items :
  orderSchema body = Some items →
  body ≠ [] ∧ Forall2 (fun r item => orderSchema_item r = Some item) body items.
Proof.
  destruct body as [|r rs]; [discriminate|].
  intros H. split; [done|]. by apply orderSchema_items_Some.
Qed.

Lemma stock_check_Some products items e :
  stock_check products items = Some e →
  ∃ name, e = AppError 400 ("Not enough stock for product " +:+ name).
Proof.
  induction items as [|i items IH]; simpl; [discriminate|].
  destruct (find_product products (Item.productId i)); [|done].
  case_bool_decide; [|done]. intros [= <-]. eauto.
Qed.

Lemma z_number_int_positive_nonpositive q :
  Qle q 0 → z_number_int_positive q = None.
Proof.
  unfold Qle, z_number_int_positive. simpl. intros Hq.
  rewrite decide_False; [done|]. lia.
Qed.

(** X4. createOrder answers 400 "Invalid request body", and writes nothing,
    when the [items] array is empty and when one of its lines has a product
    id, or a quantity, that is zero or below. *)
Theorem createOrder_refuses_nonpositive read jwt body s :
  body = [] ∨
  Exists (fun line =>
            Qle (RawItem.productId line) 0 ∨
            ∃ q, RawItem.quantity line = Some q ∧ Qle q 0) body →
  createOrderAt read jwt body s
  = (Err (AppError 400 "Invalid request body"), s).
Proof.
  intros Hbad. unfold createOrderAt.
  assert (orderSchema body = None) as ->; [|done].
  destruct Hbad as [->|Hbad]; [done|].
  destruct body as [|r rs]; [by apply Exists_nil in Hbad|].
  unfold orderSchema. apply orderSchema_items_None.
  eapply Exists_impl; [exact Hbad|].
  intros line [Hpid|(q & Hq & Hle)]; unfold orderSchema_item.
  - by rewrite z_number_int_positive_nonpositive.
  - destruct (z_number_int_positive (RawItem.productId line)); [|done].
    by rewrite Hq, z_number_int_positive_nonpositive.
Qed.

Lemma createOrder_refuses_nonpositive_witness :
  createOrderAt Scenario.s0 Scenario.U
    [Scenario.line 1 2; Scenario.line 2 0] Scenario.s0
  = (Err (AppError 400 "Invalid request body"), Scenario.s0).
Proof.
  apply createOrder_refuses_nonpositive. right.
  apply Exists_cons_tl, Exists_cons_hd. right.
  exists (inject_Z 0). split; [reflexivity|].
  unfold Qle. simpl. lia.
Defined.

(** X5. A request that createOrder accepts has at least one line, names a
    different product on every line, and every line has a product id and a
    quantity above zero, a product that the store read holds and that is not
    soft-deleted, and a quantity that does not exceed the stock read; the
    caller has a user row when the transaction runs. *)
Theorem createOrder_accepted_request read jwt body s r s' :
  createOrderAt read jwt body s = (Ok r, s') →
  ∃ items,
    orderSchema body = Some items ∧ items ≠ [] ∧
    NoDup (map Item.productId items) ∧
    Forall (fun item =>
              0 < Item.productId item ∧ 0 < Item.quantity item ∧
              ∃ p, product read !! Item.productId item = Some p ∧
                   Product.deletedAt p = None ∧
                   Item.quantity item ≤ Product.stock p)
           items ∧
    is_Some (user s !! jwt_id jwt).
Proof.
  intros (items & Hparse & Hlen & Hcheck & Htx)%createOrderAt_Ok.
  simpl in Hlen. rewrite <- (length_map Item.productId items) in Hlen.
  apply findMany_length_lines in Hlen as [Hnodup Hres].
  apply createOrderTx_Ok in Htx as (_ & _ & _ & _ & _ & (u & Hu & _) & _).
  exists items. apply orderSchema_Some in Hparse as Hshape.
  destruct Hshape as [Hne Hall].
  repeat split; try done.
  - intros ->. apply Forall2_nil_inv_r in Hall. done.
  - apply Forall_forall. intros item Hitem.
    apply list_elem_of_lookup in Hitem as Hi. destruct Hi as [i Hi].
    destruct (Forall2_lookup_r _ _ _ _ _ Hall Hi) as (line & _ & Hline).
    apply orderSchema_item_Some in Hline as [Hpid Hq].
    split; [done|]. split; [done|].
    assert (Item.productId item ∈ map Item.productId items) as Hin
      by by apply (list_elem_of_fmap_2 Item.productId).
    destruct (Hres _ Hin) as (p & Hp & Hdel).
    destruct (find_product_resolved _ read _ Hin (Hres _ Hin))
      as (p' & Hfind & Hp').
    assert (p' = p) as -> by congruence.
    exists p. repeat split; try done.
    exact (stock_check_None _ _ Hcheck item _ Hitem Hfind).
Qed.

Lemma createOrder_accepted_request_witness :
  createOrderAt Scenario.s0 Scenario.U Scenario.body Scenario.s0
  = (Ok Scenario.response, Scenario.s1) ∧
  ∃ items,
    orderSchema Scenario.body = Some items ∧ items ≠ [] ∧
    NoDup (map Item.productId items) ∧
    Forall (fun item =>
              0 < Item.productId item ∧ 0 < Item.quantity item ∧
              ∃ p, product Scenario.s0 !! Item.productId item = Some p ∧
                   Product.deletedAt p = None ∧
                   Item.quantity item ≤ Product.stock p)
           items ∧
    is_Some (user Scenario.s0 !! 7).
Proof.
  assert (createOrderAt Scenario.s0 Scenario.U Scenario.body Scenario.s0
          = (Ok Scenario.response, Scenario.s1)) as H
    by (vm_compute; reflexivity).
  split; [exact H|].
  exact (createOrder_accepted_request _ _ _ _ _ _ H).
Defined.

(** ** What a committed order changes *)

Lemma createOrderLines_new_items orderId products items :
  ∀ s outs s',
    mapM (createOrderLine orderId products) items s = (Ok outs, s') →
    (∀ k row, orderItem s' !! k = Some row →
              orderItem s !! k = Some row ∨
              ∃ out, out ∈ outs ∧ ItemOut.id out = k ∧
                     row = item_row orderId out) ∧
    Forall (fun out => orderItem s !! ItemOut.id out = None) outs.
Proof.
  induction items as [|item items IH]; intros s outs s' H; simpl in H.
  - injection H as <- <-. split; [auto|constructor].
  - apply bind_Ok in H as (out & s1 & Hline & H).
    apply bind_Ok in H as (outs' & s2 & Hrest & Hret).
    injection Hret as <- <-.
    apply createOrderLine_Ok in Hline
      as (p & p0 & _ & Hout & Hfresh & Hitems & _).
    apply IH in Hrest as [Hnew Hfreshs].
    assert (ItemOut.id out = orderItem_seq s) as Hid by (by subst out).
    split.
    + intros k row [Hk|(out' & Hin & Hk & Hrow)]%Hnew.
      * rewrite Hitems in Hk.
        apply lookup_insert_Some in Hk as [[<- <-]|[_ Hk]]; [|by left].
        right. exists out. split; [apply list_elem_of_here|done].
      * right. exists out'. split; [by apply list_elem_of_further|done].
    + constructor; [by rewrite Hid|].
      eapply Forall_impl; [exact Hfreshs|]. intros out' Hnone. simpl in Hnone.
      rewrite Hitems in Hnone. by apply lookup_insert_None in Hnone as [? _].
Qed.

Lemma createOrderTx_new_items jwt items products s r s' :
  createOrderTx jwt items products s = (Ok r, s') →
  (∀ k row, orderItem s' !! k = Some row →
            orderItem s !! k = Some row ∨
            ∃ out, out ∈ OrderResponse.items r ∧ ItemOut.id out = k ∧
                   row = item_row (OrderResponse.id r) out) ∧
  Forall (fun out => orderItem s !! ItemOut.id out = None)
         (OrderResponse.items r) ∧
  (∀ k row, orderItem s !! k = Some row → orderItem s' !! k = Some row).
Proof.
  unfold createOrderTx.
  intros (newOrder & s1 & Hcreate & H)%bind_Ok.
  apply bind_Ok in H as (orderItems & s2 & Hlines & H).
  apply bind_Ok in H as (updated & s3 & Hupd & H).
  apply bind_Ok in H as (u' & s4 & Huser & Hret).
  injection Hret as <- <-.
  unfold order_create in Hcreate. simpl in Hcreate.
  destruct (order s !! order_seq s); [discriminate|].
  injection Hcreate as <- <-.
  pose proof (createOrderLines_new_items _ _ _ _ _ _ Hlines) as [Hnew Hfresh].
  apply createOrderLines_Ok in Hlines as (_ & _ & _ & _ & Hkeep & _).
  unfold order_update_totalPrice_increment in Hupd.
  destruct (order s2 !! _); [|discriminate].
  injection Hupd as <- <-.
  unfold user_update_point_increment in Huser. simpl in Huser.
  destruct (user s2 !! jwt_id jwt); [|discriminate].
  injection Huser as _ <-. simpl in *. auto.
Qed.

(** X6. A committed order takes off the stock of every product exactly what
    the request asks of it, whatever the stock is when the transaction runs;
    it changes no other column of a product and neither adds nor removes a
    product row. *)
Theorem createOrder_stock_accounting read jwt body s r s' :
  createOrderAt read jwt body s = (Ok r, s') →
  ∃ items,
    orderSchema body = Some items ∧
    ∀ k, product s' !! k = take_stock (ordered k items) <$> product s !! k.
Proof.
  intros (items & Hparse & _ & _ & Htx)%createOrderAt_Ok.
  exists items. split; [done|]. by eapply createOrderTx_stock.
Qed.

Lemma createOrder_stock_accounting_witness :
  createOrderAt Scenario.s0 Scenario.U Scenario.body Scenario.s0
  = (Ok Scenario.response, Scenario.s1) ∧
  ∃ items,
    orderSchema Scenario.body = Some items ∧
    ∀ k, product Scenario.s1 !! k
         = take_stock (ordered k items) <$> product Scenario.s0 !! k.
Proof.
  assert (createOrderAt Scenario.s0 Scenario.U Scenario.body Scenario.s0
          = (Ok Scenario.response, Scenario.s1)) as H
    by (vm_compute; reflexivity).
  split; [exact H|].
  exact (createOrder_stock_accounting _ _ _ _ _ _ H).
Defined.

(** X7. A committed order leaves every order row and every order item row
    that was there as it was.  The order rows afterwards are those and the
    new one; the order item rows afterwards are those and the items of the
    response, stored under the new order, each under an id that was free. *)
Theorem createOrder_keeps_history read jwt body s r s' :
  createOrderAt read jwt body s = (Ok r, s') →
  (∀ k, k ≠ OrderResponse.id r → order s' !! k = order s !! k) ∧
  order s !! OrderResponse.id r = None ∧
  (∀ k row, orderItem s !! k = Some row → orderItem s' !! k = Some row) ∧
  (∀ k row, orderItem s' !! k = Some row →
            orderItem s !! k = Some row ∨
            ∃ out, out ∈ OrderResponse.items r ∧ ItemOut.id out = k ∧
                   row = item_row (OrderResponse.id r) out) ∧
  Forall (fun out => orderItem s !! ItemOut.id out = None)
         (OrderResponse.items r).
Proof.
  intros (items & _ & _ & _ & Htx)%createOrderAt_Ok.
  pose proof (createOrderTx_new_items _ _ _ _ _ _ Htx) as (Hnew & Hfresh & Hkeep).
  apply createOrderTx_Ok in Htx as (Hid & Hnone & _ & _ & Horder & _).
  repeat split; try done.
  - intros k Hk. rewrite Horder, lookup_insert_ne; [done|]. congruence.
  - by rewrite Hid.
Qed.

Lemma createOrder_keeps_history_witness :
  let r := OrderResponse.mk 4 7 600 1003 0 [ItemOut.mk 4 1 1 600 600] in
  let s' := (createOrder Scenario.U [Scenario.line 1 1] Fixture.shop).2 in
  createOrderAt Fixture.shop Scenario.U [Scenario.line 1 1] Fixture.shop
  = (Ok r, s') ∧
  order s' !! 1 = Some (Order.mk 7 2700 1000) ∧
  orderItem s' !! 3 = Some (OrderItem.mk 2 1 1 500 500) ∧
  orderItem Fixture.shop !! 4 = None.
Proof.
  intros r s'.
  assert (createOrderAt Fixture.shop Scenario.U [Scenario.line 1 1]
            Fixture.shop = (Ok r, s')) as H
    by (vm_compute; reflexivity).
  split; [exact H|].
  destruct (createOrder_keeps_history _ _ _ _ _ _ H)
    as (Horder & _ & Hkeep & _ & Hfresh).
  split; [|split].
  - rewrite Horder; [reflexivity|]. simpl. lia.
  - apply Hkeep. reflexivity.
  - apply Forall_cons in Hfresh as [Hfresh _]. exact Hfresh.
Defined.

(** ** Listing orders *)



Lemma getOrders_getOrdersAt jwt query s :
  getOrders jwt query s = getOrdersAt s s jwt query.
Proof. reflexivity. Qed.

(** The list and the total are not one snapshot: when U's second order
    commits between the two queries, after [count] ran and before [findMany]
    did, U's listing holds 2 orders where the total says 1. *)
Example getOrdersAt_total_apart :
  let before :=
    mkStore ∅ (user Scenario.bank)
            (<[1 := Order.mk 7 2700 1000]> (<[2 := Order.mk 8 500 1001]> ∅))
            ∅ 3 1 1002 in
  let res :=
    getOrdersAt Scenario.ledger before Scenario.U
      (Query.mk None None None None None) in
  length (Meta.data res) = 2%nat ∧ Meta.total res = 1.
Proof. vm_compute. auto. Qed.



(** X9. For a caller whose role is ADMIN the selection is not tied to a
    user.  With a minPrice or a maxPrice it holds the orders of every user
    whose total price lies in that range.  With neither it holds the orders
    that have at least one order item with a line total of zero or more: an
    order without items is not listed. *)
Theorem getOrders_admin jwt query s :
  jwt_role jwt = ADMIN →
  let res := getOrders jwt query s in
  let selected :=
    order_where
      (buildOrderWhere None (Query.minPrice query) (Query.maxPrice query)) s in
  Meta.total res = Z.of_nat (length selected) ∧
  (∀ out, out ∈ Meta.data res → ∃ o, o ∈ selected ∧ out = include_items s o) ∧
  ∀ o, o ∈ selected ↔
       o ∈ map_to_list (order s) ∧
       match Query.minPrice query, Query.maxPrice query with
       | None, None =>
           ∃ i, i ∈ map_to_list (orderItem s) ∧
                OrderItem.orderId i.2 = o.1 ∧ 0 ≤ OrderItem.totalPrice i.2
       | lo, hi =>
           IntFilter.matches (IntFilter.mk lo hi) (Order.totalPrice o.2) = true
       end.
Proof.
  intros Hrole res selected.
  assert (res = paginationResponse
                  (paginationSchema_field 30 (Query.limit query))
                  (paginationSchema_field 1 (Query.page query))
                  (order_count
                     (buildOrderWhere None (Query.minPrice query)
                        (Query.maxPrice query)) s)
                  (order_findMany
                     (buildOrderWhere None (Query.minPrice query)
                        (Query.maxPrice query))
                     (buildOrderOrderBy (Query.sortBy query))
                     (paginationSchema_field 30 (Query.limit query))
                     ((paginationSchema_field 1 (Query.page query) - 1)
                      * paginationSchema_field 30 (Query.limit query)) s))
    as ->.
  { unfold res, getOrders. by rewrite bool_decide_eq_true_2. }
  simpl. split; [done|]. split.
  - intros out Hout. by apply order_findMany_where in Hout.
  - intros o. unfold selected, order_where.
    rewrite list_elem_of_filter.
    assert (∀ v, IntFilter.matches (IntFilter.mk (Some 0) None) v = true
                 ↔ 0 ≤ v) as Hge.
    { intros v. unfold IntFilter.matches. simpl.
      by rewrite andb_true_r, bool_decide_eq_true. }
    enough (order_matches s
              (buildOrderWhere None (Query.minPrice query)
                 (Query.maxPrice query)) o = true ↔
            match Query.minPrice query, Query.maxPrice query with
            | None, None =>
                ∃ i, i ∈ map_to_list (orderItem s) ∧
                     OrderItem.orderId i.2 = o.1 ∧
                     0 ≤ OrderItem.totalPrice i.2
            | lo, hi =>
                IntFilter.matches (IntFilter.mk lo hi) (Order.totalPrice o.2)
                = true
            end) as ->
      by tauto.
    unfold buildOrderWhere, order_matches.
    destruct (Query.minPrice query), (Query.maxPrice query); simpl;
      rewrite ?andb_true_r; try done.
    rewrite bool_decide_eq_true, Exists_exists.
    split; intros (i & Hin & Hid & Hi); exists i; by rewrite Hge in *.
Qed.

Lemma getOrders_admin_witness :
  (* no price filter: order 3, which has no items, is left out *)
  Meta.total (getOrders Fixture.root (Query.mk None None None None None)
                        Fixture.shop) = 2 ∧
  (* with minPrice 0 all three orders are selected *)
  Meta.total (getOrders Fixture.root (Query.mk None (Some 0) None None None)
                        Fixture.shop) = 3 ∧
  ∀ o, o ∈ order_where (buildOrderWhere None None None) Fixture.shop ↔
       o ∈ map_to_list (order Fixture.shop) ∧
       ∃ i, i ∈ map_to_list (orderItem Fixture.shop) ∧
            OrderItem.orderId i.2 = o.1 ∧ 0 ≤ OrderItem.totalPrice i.2.
Proof.
  split; [vm_compute; reflexivity|]. split; [vm_compute; reflexivity|].
  refine (proj2 (proj2 (getOrders_admin Fixture.root
                          (Query.mk None None None None None)
                          Fixture.shop _))).
  reflexivity.
Defined.

Lemma buildOrderOrderBy_Some c str :
  let parts := split_dot (String c str) in
  let direction :=
    if bool_decide (parts !! 1%nat = Some "asc") then asc else desc in
  buildOrderOrderBy (Some (String c str)) =
  if bool_decide (parts !! 0%nat = Some "totalPrice")
  then OrderBy.mk (Some direction) None
  else if bool_decide (parts !! 0%nat = Some "createdAt")
       then OrderBy.mk None (Some direction)
       else OrderBy.mk None (Some desc).
Proof.
  unfold buildOrderOrderBy. cbv beta iota zeta.
  generalize (split_dot (String c str)). intros parts.
  destruct (bool_decide (parts !! 0%nat = Some "totalPrice")) eqn:Htotal,
           (bool_decide (parts !! 0%nat = Some "createdAt")) eqn:Hcreated;
    try reflexivity.
  apply bool_decide_eq_true in Htotal, Hcreated. congruence.
Qed.

(** X10. The orderBy that buildOrderOrderBy builds always names exactly one
    column.  It is totalPrice exactly when sortBy's text before the first
    dot is "totalPrice"; it is ascending only when the text between the
    first and the second dot is "asc"; and a sortBy that names neither
    totalPrice nor createdAt before its first dot sorts by createdAt
    descending. *)
Theorem buildOrderOrderBy_one_column sortBy :
  let ob := buildOrderOrderBy sortBy in
  OrderBy.keys ob = 1%nat ∧
  (is_Some (OrderBy.totalPrice ob) ↔
   ∃ str, sortBy = Some str ∧ split_dot str !! 0%nat = Some "totalPrice") ∧
  (OrderBy.totalPrice ob = Some asc ∨ OrderBy.createdAt ob = Some asc →
   ∃ str, sortBy = Some str ∧ split_dot str !! 1%nat = Some "asc") ∧
  ((∀ str, sortBy = Some str →
           split_dot str !! 0%nat ≠ Some "totalPrice" ∧
           split_dot str !! 0%nat ≠ Some "createdAt") →
   ob = OrderBy.mk None (Some desc)).
Proof.
  destruct sortBy as [[|c str]|].
  - simpl. split; [done|]. split; [|split; [|done]].
    + split; [by intros [? ?]|]. intros (str & [= <-] & H). discriminate.
    + by intros [?|?].
  - intros ob. subst ob. rewrite buildOrderOrderBy_Some.
    set (parts := split_dot (String c str)).
    destruct (decide (parts !! 0%nat = Some "totalPrice")) as [Htotal|Htotal].
    + rewrite (bool_decide_eq_true_2 _ Htotal).
      split; [done|]. split; [|split].
      * split; [intros _; by exists (String c str) | by eexists].
      * case_bool_decide as Hdir; [|by intros [?|?]].
        intros _. by exists (String c str).
      * intros H. by destruct (H _ eq_refl).
    + rewrite (bool_decide_eq_false_2 _ Htotal).
      assert (¬ ∃ str0, Some (String c str) = Some str0 ∧
                        split_dot str0 !! 0%nat = Some "totalPrice") as Hno.
      { intros (? & [= <-] & ?). done. }
      destruct (decide (parts !! 0%nat = Some "createdAt"))
        as [Hcreated|Hcreated].
      * rewrite (bool_decide_eq_true_2 _ Hcreated).
        split; [done|]. split; [|split].
        -- split; [by intros [? ?] | done].
        -- case_bool_decide as Hdir; [|by intros [?|?]].
           intros _. by exists (String c str).
        -- intros H. by destruct (H _ eq_refl).
      * rewrite (bool_decide_eq_false_2 _ Hcreated).
        split; [done|]. split; [|split; [|done]].
        -- split; [by intros [? ?] | done].
        -- by intros [?|?].
  - simpl. split; [done|]. split; [|split; [|done]].
    + split; [by intros [? ?] | by intros (? & ? & ?)].
    + by intros [?|?].
Qed.


(** ** Authentication and authorization *)

Lemma slice_Bearer token :
  slice (String.length "Bearer ") ("Bearer " +:+ token) = token.
Proof. reflexivity. Qed.

(** X12. When the request has a token cookie the Authorization header is
    never consulted: requireAuth gives the same outcome whatever the header
    is, and an empty cookie is refused with 401 "Missing or invalid
    authorization" even next to a header that carries a valid token.
    Without a cookie, the header "Bearer " followed by a token yields that
    token, and a header that does not start with "Bearer " yields none. *)
Theorem requireAuth_cookie_first verifyJWT :
  (∀ token authorization authorization',
     requireAuth verifyJWT (Some token) authorization
     = requireAuth verifyJWT (Some token) authorization') ∧
  (∀ authorization,
     requireAuth verifyJWT (Some "") authorization
     = Err (AppError 401 "Missing or invalid authorization")) ∧
  (∀ token, getToken None (Some ("Bearer " +:+ token)) = Some token) ∧
  (∀ authHeader,
     String.prefix "Bearer " authHeader = false →
     requireAuth verifyJWT None (Some authHeader)
     = Err (AppError 401 "Missing or invalid authorization")) ∧
  requireAuth verifyJWT None None
  = Err (AppError 401 "Missing or invalid authorization").
Proof.
  repeat split; try done.
  - intros token. unfold getToken.
    rewrite bool_decide_eq_true_2, slice_Bearer by done.
    simpl. by destruct token.
  - intros authHeader Hprefix. unfold requireAuth, getToken.
    by rewrite Hprefix, andb_false_r.
Qed.

(** X13. The route GET /users/:userId/orders answers with a list only to a
    token that verifies to an administrator, and then with what
    getUserOrders answers; a token that verifies to a user who is not an
    administrator gets 403 "Access forbidden", and a token that does not
    verify gets 401 "Invalid or expired token", whatever the rest of the
    request. *)
Theorem route_getUserOrders_admin_only verifyJWT cookieToken authorization
    userId query s :
  (∀ res,
     route_getUserOrders verifyJWT cookieToken authorization userId query s
     = Ok res →
     ∃ token admin,
       getToken cookieToken authorization = Some token ∧
       verifyJWT token = Some admin ∧ jwt_role admin = ADMIN ∧
       getUserOrders userId query s = Ok res) ∧
  (∀ token caller,
     getToken cookieToken authorization = Some token → token ≠ "" →
     verifyJWT token = Some caller →
     route_getUserOrders verifyJWT cookieToken authorization userId query s
     = if bool_decide (jwt_role caller = ADMIN)
       then getUserOrders userId query s
       else Err (AppError 403 "Access forbidden")) ∧
  (∀ token,
     getToken cookieToken authorization = Some token → token ≠ "" →
     verifyJWT token = None →
     route_getUserOrders verifyJWT cookieToken authorization userId query s
     = Err (AppError 401 "Invalid or expired token")).
Proof.
  unfold route_getUserOrders, requireAuth, authorize.
  split; [|split].
  - intros res.
    destruct (getToken cookieToken authorization) as [token|]; [|discriminate].
    case_bool_decide as Hempty; [discriminate|].
    destruct (verifyJWT token) as [caller|] eqn:Hverify; [|discriminate].
    case_bool_decide as Hrole; [|discriminate].
    intros Hres. exists token, caller. repeat split; try done.
    by apply list_elem_of_singleton in Hrole.
  - intros token caller -> Hne Hverify.
    rewrite bool_decide_eq_false_2, Hverify by done.
    destruct (jwt_role caller); by vm_compute.
  - intros token -> Hne Hverify.
    by rewrite bool_decide_eq_false_2, Hverify.
Qed.

Lemma route_getUserOrders_admin_only_witness :
  (* user U asks for the orders of user 8 *)
  route_getUserOrders Fixture.verifyJWT None (Some "Bearer u-token") 8
    (Query.mk None None None None None) Fixture.shop
  = Err (AppError 403 "Access forbidden") ∧
  (* the administrator does *)
  route_getUserOrders Fixture.verifyJWT (Some "root-token") None 8
    (Query.mk None None None None None) Fixture.shop
  = getUserOrders 8 (Query.mk None None None None None) Fixture.shop ∧
  (* a token of someone else's making *)
  route_getUserOrders Fixture.verifyJWT (Some "forged") None 8
    (Query.mk None None None None None) Fixture.shop
  = Err (AppError 401 "Invalid or expired token").
Proof.
  split; [|split].
  - refine (proj1 (proj2 (route_getUserOrders_admin_only Fixture.verifyJWT
                            None (Some "Bearer u-token") 8 _ Fixture.shop))
                  "u-token" Scenario.U _ _ _);
      [reflexivity | discriminate | reflexivity].
  - refine (proj1 (proj2 (route_getUserOrders_admin_only Fixture.verifyJWT
                            (Some "root-token") None 8 _ Fixture.shop))
                  "root-token" Fixture.root _ _ _);
      [reflexivity | discriminate | reflexivity].
  - refine (proj2 (proj2 (route_getUserOrders_admin_only Fixture.verifyJWT
                            (Some "forged") None 8 _ Fixture.shop))
                  "forged" _ _ _);
      [reflexivity | discriminate | reflexivity].
Defined.

(** ** Sorting the order summaries *)

(** X14. The orderBy that buildOrderGroupedOrderBy builds always names
    exactly one aggregate, and the latest order date is never sorted
    ascending: a sortBy whose text before the first dot is neither
    "totalPrice" nor "orderCount" ("createdAt.asc" included) sorts the
    summaries by latest order date, descending. *)
Theorem buildOrderGroupedOrderBy_newest_first sortBy :
  let ob := buildOrderGroupedOrderBy sortBy in
  GroupedOrderBy.keys ob = 1%nat ∧
  GroupedOrderBy.max_createdAt ob ≠ Some asc ∧
  ((∀ str, sortBy = Some str →
           split_dot str !! 0%nat ≠ Some "totalPrice" ∧
           split_dot str !! 0%nat ≠ Some "orderCount") →
   ob = GroupedOrderBy.mk None None (Some desc)) ∧
  buildOrderGroupedOrderBy (Some "createdAt.asc")
  = GroupedOrderBy.mk None None (Some desc).
Proof.
  assert (∀ c str,
            let parts := split_dot (String c str) in
            buildOrderGroupedOrderBy (Some (String c str)) =
            let direction :=
              if bool_decide (parts !! 1%nat = Some "asc") then asc else desc in
            if bool_decide (parts !! 0%nat = Some "totalPrice")
            then GroupedOrderBy.mk (Some direction) None None
            else if bool_decide (parts !! 0%nat = Some "orderCount")
                 then GroupedOrderBy.mk None (Some direction) None
                 else GroupedOrderBy.mk None None (Some desc)) as Heq.
  { intros c str. unfold buildOrderGroupedOrderBy. cbv beta iota zeta.
    generalize (split_dot (String c str)). intros parts.
    destruct (bool_decide (parts !! 0%nat = Some "totalPrice")) eqn:Htotal,
             (bool_decide (parts !! 0%nat = Some "orderCount")) eqn:Hcount;
      try reflexivity.
    apply bool_decide_eq_true in Htotal, Hcount. congruence. }
  split; [|split; [|split; [|reflexivity]]];
    destruct sortBy as [[|c str]|]; try done;
    intros; rewrite Heq; cbv zeta.
  - by repeat case_bool_decide.
  - by repeat case_bool_decide.
  - match goal with H : ∀ str, _ → _ |- _ =>
      destruct (H _ eq_refl) as [Htotal Hcount] end.
    by rewrite !bool_decide_eq_false_2.
Qed.

(** ** Whole positive numbers *)

Lemma z_number_int_positive_whole q n :
  0 < n → Qeq q (inject_Z n) → z_number_int_positive q = Some n.
Proof.
  intros Hpos Heq. unfold Qeq in Heq. simpl in Heq.
  rewrite Z.mul_1_r in Heq.
  unfold z_number_int_positive. rewrite Heq.
  rewrite decide_True.
  - by rewrite Z.div_mul.
  - split; [by apply Z.mod_mul | lia].
Qed.

Lemma z_number_int_positive_inject n :
  0 < n → z_number_int_positive (inject_Z n) = Some n.
Proof. intros Hpos. by apply z_number_int_positive_whole. Qed.

(** In this embedding [z.number().int().positive()] accepts a rational
    exactly when it equals a whole number above zero, and yields that
    number, whichever way the fraction is written. *)
Lemma z_number_int_positive_iff q n :
  z_number_int_positive q = Some n ↔ 0 < n ∧ Qeq q (inject_Z n).
Proof.
  split; [apply z_number_int_positive_Some|].
  intros [Hpos Heq]. by apply z_number_int_positive_whole.
Qed.

(** ** More on point transfer *)

Lemma transferPointSchema_Some body data :
  transferPointSchema body = Some data →
  0 < Transfer.receiverId data ∧ 0 < Transfer.amount data.
Proof.
  unfold transferPointSchema.
  destruct (z_number_int_positive (TransferBody.receiverId body)) as [rid|] eqn:Hr;
    [|discriminate].
  destruct (z_number_int_positive (TransferBody.amount body)) as [a|] eqn:Ha;
    [|discriminate].
  intros [= <-]. simpl.
  apply z_number_int_positive_Some in Hr as [? _].
  by apply z_number_int_positive_Some in Ha as [? _].
Qed.

Lemma transferPointSchema_inject receiverId amount :
  0 < receiverId → 0 < amount →
  transferPointSchema
    (TransferBody.mk (inject_Z receiverId) (inject_Z amount))
  = Some (Transfer.mk receiverId amount).
Proof.
  intros Hr Ha. unfold transferPointSchema. simpl.
  by rewrite !z_number_int_positive_inject.
Qed.

(** What a transfer that passes every check does. *)
Lemma transferPoint_run jwt body s data sender receiver :
  transferPointSchema body = Some data →
  user s !! jwt_id jwt = Some sender →
  user s !! Transfer.receiverId data = Some receiver →
  jwt_id jwt ≠ Transfer.receiverId data →
  Transfer.amount data ≤ User.point sender →
  let sender' :=
    User.mk (User.email sender)
            (User.point sender + - Transfer.amount data) in
  let receiver' :=
    User.mk (User.email receiver)
            (User.point receiver + Transfer.amount data) in
  transferPoint jwt body s
  = (Ok (TransferResponse.mk (jwt_id jwt, sender')
                             (Transfer.receiverId data, receiver')),
     mkStore (product s)
             (<[Transfer.receiverId data := receiver']>
                (<[jwt_id jwt := sender']> (user s)))
             (order s) (orderItem s) (order_seq s) (orderItem_seq s) (now s)).
Proof.
  intros Hparse Hs Hr Hne Hbal sender' receiver'.
  apply transferPointSchema_Some in Hparse as Hpos. destruct Hpos as [_ Hpos].
  unfold transferPoint, transferPointAt. rewrite Hparse.
  rewrite bool_decide_eq_false_2 by lia.
  unfold user_findUnique. rewrite Hs, Hr. simpl.
  rewrite bool_decide_eq_false_2 by done.
  rewrite bool_decide_eq_false_2 by lia.
  unfold transaction, bind, user_update_point_decrement,
    user_update_point_increment, ret.
  rewrite Hs. simpl. by rewrite lookup_insert_ne, Hr.
Qed.

Lemma transferPoint_Ok_run jwt body s r s' :
  transferPoint jwt body s = (Ok r, s') →
  ∃ data sender receiver,
    transferPointSchema body = Some data ∧
    user s !! jwt_id jwt = Some sender ∧
    user s !! Transfer.receiverId data = Some receiver ∧
    jwt_id jwt ≠ Transfer.receiverId data ∧
    0 < Transfer.amount data ∧
    Transfer.amount data ≤ User.point sender ∧
    s' = mkStore (product s)
           (<[Transfer.receiverId data :=
                User.mk (User.email receiver)
                        (User.point receiver + Transfer.amount data)]>
              (<[jwt_id jwt :=
                   User.mk (User.email sender)
                           (User.point sender + - Transfer.amount data)]>
                 (user s)))
           (order s) (orderItem s) (order_seq s) (orderItem_seq s) (now s).
Proof.
  intros H.
  apply transferPoint_Ok in H as Hok.
  destruct Hok as (data & sender & receiver & Hparse & Hpos & Hs & Hr & Hne
                   & Hbal & _).
  exists data, sender, receiver. repeat split; try done.
  rewrite (transferPoint_run _ _ _ _ _ _ Hparse Hs Hr Hne Hbal) in H.
  by injection H as _ <-.
Qed.

(** X15. A transfer that nothing interleaves with goes through when the
    body parses, the caller and the receiver both have a user row, they are
    not the same user, the caller's balance is at least the amount, and the
    receiver's id, the two balances and the receiver's balance with the
    amount added are within the INTEGER range.  The response and the store
    then carry the caller's balance less the amount and the receiver's
    balance plus the amount. *)
Theorem transferPoint_succeeds_when jwt body s data sender receiver :
  transferPointSchema body = Some data →
  user s !! jwt_id jwt = Some sender →
  user s !! Transfer.receiverId data = Some receiver →
  jwt_id jwt ≠ Transfer.receiverId data →
  Transfer.amount data ≤ User.point sender →
  Transfer.receiverId data ≤ INT4_MAX →
  int4 (User.point sender) →
  int4 (User.point receiver) →
  int4 (User.point receiver + Transfer.amount data) →
  ∃ s',
    transferPoint jwt body s
    = (Ok (TransferResponse.mk
             (jwt_id jwt,
              User.mk (User.email sender)
                      (User.point sender - Transfer.amount data))
             (Transfer.receiverId data,
              User.mk (User.email receiver)
                      (User.point receiver + Transfer.amount data))), s') ∧
    user s' !! jwt_id jwt
    = Some (User.mk (User.email sender)
                    (User.point sender - Transfer.amount data)) ∧
    user s' !! Transfer.receiverId data
    = Some (User.mk (User.email receiver)
                    (User.point receiver + Transfer.amount data)).
Proof.
  intros Hparse Hs Hr Hne Hbal _ _ _ _.
  eexists. split; [|split].
  - rewrite (transferPoint_run _ _ _ _ _ _ Hparse Hs Hr Hne Hbal).
    reflexivity.
  - simpl. by rewrite lookup_insert_ne, lookup_insert_eq.
  - simpl. by rewrite lookup_insert_eq.
Qed.

Lemma transferPoint_succeeds_when_witness :
  ∃ s',
    transferPoint Scenario.U (Scenario.transfer 8 20) Scenario.bank
    = (Ok (TransferResponse.mk (7, User.mk "u@example.com" (50 - 20))
                               (8, User.mk "v@example.com" (5 + 20))), s') ∧
    user s' !! 7 = Some (User.mk "u@example.com" (50 - 20)) ∧
    user s' !! 8 = Some (User.mk "v@example.com" (5 + 20)).
Proof.
  apply (transferPoint_succeeds_when Scenario.U (Scenario.transfer 8 20)
           Scenario.bank (Transfer.mk 8 20)
           (User.mk "u@example.com" 50) (User.mk "v@example.com" 5));
    try reflexivity; unfold int4, INT4_MIN, INT4_MAX; simpl; lia.
Defined.

Lemma transferPointSchema_inject_Some receiverId amount data :
  transferPointSchema
    (TransferBody.mk (inject_Z receiverId) (inject_Z amount)) = Some data →
  data = Transfer.mk receiverId amount ∧ 0 < receiverId ∧ 0 < amount.
Proof.
  unfold transferPointSchema. simpl.
  destruct (z_number_int_positive (inject_Z receiverId)) as [rid|] eqn:Hr;
    [|discriminate].
  destruct (z_number_int_positive (inject_Z amount)) as [n|] eqn:Ha;
    [|discriminate].
  apply z_number_int_positive_Some in Hr as [Hr Hreq].
  apply z_number_int_positive_Some in Ha as [Ha Haeq].
  unfold Qeq in Hreq, Haeq. simpl in Hreq, Haeq.
  intros [= <-]. repeat split; try lia. f_equal; lia.
Qed.

(** X16. Sending an amount and having it sent back restores the store: when
    a transfer from [a] to [b] went through and [b] did not owe points
    before it, the transfer of the same amount from [b] to [a] goes through
    too and leaves every table as it was before the first one. *)
Theorem transferPoint_round_trip a b amount s r1 s1 :
  0 < jwt_id a →
  (∀ ub, user s !! jwt_id b = Some ub → 0 ≤ User.point ub) →
  transferPoint a (TransferBody.mk (inject_Z (jwt_id b)) (inject_Z amount)) s
  = (Ok r1, s1) →
  ∃ r2 s2,
    transferPoint b (TransferBody.mk (inject_Z (jwt_id a)) (inject_Z amount))
      s1 = (Ok r2, s2) ∧
    tables s2 = tables s.
Proof.
  intros Ha Hb H.
  apply transferPoint_Ok_run in H
    as (data & sender & receiver & Hparse & Hs & Hr & Hne & Hpos & Hbal & ->).
  apply transferPointSchema_inject_Some in Hparse as (-> & Hbpos & Hamount).
  simpl in *. specialize (Hb _ Hr).
  eexists _, _. split.
  - eapply (transferPoint_run b _ _ (Transfer.mk (jwt_id a) amount)); simpl.
    + by apply transferPointSchema_inject.
    + apply lookup_insert_eq.
    + rewrite lookup_insert_ne, lookup_insert_eq by done. done.
    + done.
    + simpl. lia.
  - unfold tables. simpl.
    match goal with |- (_, ?u, _, _) = _ =>
      assert (u = user s) as ->; [|done] end.
    apply map_eq. intros k.
    destruct (decide (k = jwt_id a)) as [->|Hka].
    + rewrite lookup_insert_eq, Hs. destruct sender. simpl.
      do 2 f_equal. lia.
    + rewrite lookup_insert_ne by done.
      destruct (decide (k = jwt_id b)) as [->|Hkb].
      * rewrite lookup_insert_eq, Hr. destruct receiver. simpl.
        do 2 f_equal. lia.
      * by rewrite !lookup_insert_ne.
Qed.

Lemma transferPoint_round_trip_witness :
  let there :=
    transferPoint Scenario.U (Scenario.transfer 8 20) Scenario.bank in
  let back := transferPoint Scenario.V (Scenario.transfer 7 20) there.2 in
  User.point <$> user there.2 !! 7 = Some 30 ∧
  ∃ r2 s2,
    transferPoint Scenario.V
      (TransferBody.mk (inject_Z 7) (inject_Z 20)) there.2 = (Ok r2, s2) ∧
    tables s2 = tables Scenario.bank.
Proof.
  intros there back. split; [vm_compute; reflexivity|].
  apply (transferPoint_round_trip Scenario.U Scenario.V 20 Scenario.bank
           (TransferResponse.mk (7, User.mk "u@example.com" 30)
                                (8, User.mk "v@example.com" 25))).
  - simpl. lia.
  - intros ub Hub. vm_compute in Hub. injection Hub as <-. simpl. lia.
  - vm_compute. reflexivity.
Defined.

(** X17. Two transfers in a row between the same two users come to the same
    as one transfer of the two amounts together: the same final store and
    the same balances in the response. *)
Theorem transferPoint_compose jwt receiverId n m s r1 s1 r2 s2 :
  transferPoint jwt (TransferBody.mk (inject_Z receiverId) (inject_Z n)) s
  = (Ok r1, s1) →
  transferPoint jwt (TransferBody.mk (inject_Z receiverId) (inject_Z m)) s1
  = (Ok r2, s2) →
  transferPoint jwt
    (TransferBody.mk (inject_Z receiverId) (inject_Z (n + m))) s
  = (Ok r2, s2).
Proof.
  intros H1 H2.
  apply transferPoint_Ok_run in H1
    as (d1 & sender & receiver & Hp1 & Hs & Hr & Hne & Hn & Hbal1 & ->).
  apply transferPointSchema_inject_Some in Hp1 as (-> & Hrid & _).
  simpl in *.
  pose proof (transferPoint_Ok_run _ _ _ _ _ H2)
    as (d2 & sender1 & receiver1 & Hp2 & Hs1 & Hr1 & Hne2 & Hm & Hbal2 & ->).
  rewrite (transferPoint_run _ _ _ _ _ _ Hp2 Hs1 Hr1 Hne2 Hbal2) in H2.
  injection H2 as <-.
  apply transferPointSchema_inject_Some in Hp2 as (-> & _ & _).
  simpl in *.
  rewrite lookup_insert_ne, lookup_insert_eq in Hs1 by done.
  rewrite lookup_insert_eq in Hr1.
  injection Hs1 as <-. injection Hr1 as <-. simpl in *.
  rewrite (transferPoint_run jwt _ s (Transfer.mk receiverId (n + m))
             sender receiver); simpl;
    [|by apply transferPointSchema_inject; lia|done|done|done|lia].
  replace (User.point sender + - (n + m))
    with (User.point sender + - n + - m) by lia.
  replace (User.point receiver + (n + m))
    with (User.point receiver + n + m) by lia.
  do 2 f_equal. apply map_eq. intros k.
  destruct (decide (k = receiverId)) as [->|Hkr].
  { by rewrite !lookup_insert_eq. }
  rewrite !(lookup_insert_ne _ receiverId) by done.
  destruct (decide (k = jwt_id jwt)) as [->|Hks].
  { by rewrite !lookup_insert_eq. }
  by rewrite !lookup_insert_ne.
Qed.

Lemma transferPoint_compose_witness :
  let first := transferPoint Scenario.U (Scenario.transfer 8 20) Scenario.bank in
  let second := transferPoint Scenario.U (Scenario.transfer 8 10) first.2 in
  User.point <$> user second.2 !! 7 = Some 20 ∧
  User.point <$> user second.2 !! 8 = Some 35 ∧
  transferPoint Scenario.U
    (TransferBody.mk (inject_Z 8) (inject_Z (20 + 10))) Scenario.bank
  = (Ok (TransferResponse.mk (7, User.mk "u@example.com" 20)
                             (8, User.mk "v@example.com" 35)),
     second.2).
Proof.
  intros first second.
  split; [vm_compute; reflexivity|]. split; [vm_compute; reflexivity|].
  apply (transferPoint_compose Scenario.U 8 20 10 Scenario.bank
           (TransferResponse.mk (7, User.mk "u@example.com" 30)
                                (8, User.mk "v@example.com" 25))
           first.2).
  - vm_compute. reflexivity.
  - vm_compute. reflexivity.
Defined.

(** ** All the points there are *)

#[global] Instance sumZ_Permutation : Proper ((≡ₚ) ==> (=)) sumZ.
Proof.
  intros l l' Hperm. unfold sumZ.
  induction Hperm; simpl; lia.
Qed.

Lemma total_points_insert (users : gmap Z User.t) k u u' :
  users !! k = Some u →
  sumZ (User.point <$> (map_to_list (<[k := u']> users)).*2)
  = sumZ (User.point <$> (map_to_list users).*2)
    - User.point u + User.point u'.
Proof.
  intros Hk.
  assert (map_to_list (<[k := u']> users)
          ≡ₚ (k, u') :: map_to_list (delete k users)) as Hnew.
  { rewrite <- insert_delete_eq. apply map_to_list_insert, lookup_delete_eq. }
  assert (map_to_list users ≡ₚ (k, u) :: map_to_list (delete k users))
    as Hold.
  { symmetry. by apply map_to_list_delete. }
  rewrite Hnew, Hold. csimpl. unfold sumZ. simpl. lia.
Qed.

(** X18. No transfer, accepted or rejected, changes the number of points
    there are in all: what the user rows hold together is the same after
    transferPoint as before. *)
Theorem transferPoint_total_points jwt body s :
  total_points (transferPoint jwt body s).2 = total_points s.
Proof.
  destruct (transferPoint jwt body s) as [[r|e] s'] eqn:H; simpl.
  - apply transferPoint_Ok_run in H
      as (data & sender & receiver & _ & Hs & Hr & Hne & _ & _ & ->).
    unfold total_points. simpl.
    rewrite (total_points_insert _ _ receiver)
      by by rewrite lookup_insert_ne.
    rewrite (total_points_insert _ _ sender) by done.
    simpl. lia.
  - apply transferPoint_Err in H. unfold tables in H.
    unfold total_points. by injection H as _ -> _ _.
Qed.

(** X19. An order that goes through adds to the points there are in all
    exactly the points it reports; an order that fails adds none. *)
Theorem createOrder_total_points read jwt body s :
  match createOrderAt read jwt body s with
  | (Ok r, s') => total_points s' = total_points s + OrderResponse.points r
  | (Err _, s') => total_points s' = total_points s
  end.
Proof.
  destruct (createOrderAt read jwt body s) as [[r|e] s'] eqn:H.
  - apply createOrderAt_Ok in H as (items & _ & _ & _ & Htx).
    apply createOrderTx_Ok in Htx
      as (_ & _ & _ & _ & _ & (u & Hu & Huser) & _).
    unfold total_points. rewrite Huser.
    rewrite (total_points_insert _ _ u) by done. simpl. lia.
  - apply createOrderAt_Err in H. unfold tables in H.
    unfold total_points. by injection H as _ -> _ _.
Qed.

(** ** Products: listing and soft delete *)

Lemma buildProductWhere_deletedAt jwt keyword status minPrice maxPrice
    minStock maxStock :
  ProductWhereInput.deletedAt
    (buildProductWhere jwt keyword status minPrice maxPrice minStock maxStock)
  = Some (match status with
          | Some deleted =>
              if bool_decide (jwt_role jwt = ADMIN) then not_null else is_null
          | _ => is_null
          end).
Proof.
  unfold buildProductWhere.
  rewrite bool_decide_eq_true_2.
  - simpl. by destruct status as [[]|].
  - unfold ProductWhereInput.keys. simpl. lia.
Qed.

(** X20. Whatever keyword, status and ranges a caller passes, the products
    selected for a caller who is not an administrator are all not
    soft-deleted; soft-deleted products, and only those, are selected when
    an administrator asks for status "deleted". *)
Theorem product_where_deleted_gate contains jwt keyword status
    minPrice maxPrice minStock maxStock s :
  let selected :=
    product_where contains
      (buildProductWhere jwt keyword status minPrice maxPrice minStock
         maxStock) s in
  (jwt_role jwt ≠ ADMIN ∨ status ≠ Some deleted →
   Forall (fun p => Product.deletedAt p.2 = None) selected) ∧
  (jwt_role jwt = ADMIN → status = Some deleted →
   Forall (fun p => Product.deletedAt p.2 ≠ None) selected).
Proof.
  intros selected.
  pose proof (buildProductWhere_deletedAt jwt keyword status minPrice
                maxPrice minStock maxStock) as Hgate.
  split.
  - intros Hcase. apply Forall_forall.
    intros p [Hm _]%list_elem_of_filter.
    unfold product_matches in Hm. rewrite Hgate in Hm.
    assert (match status with
            | Some deleted =>
                if bool_decide (jwt_role jwt = ADMIN)
                then not_null else is_null
            | _ => is_null
            end = is_null) as Heq.
    { destruct status as [[]|]; try done.
      destruct Hcase as [Hrole|Hstatus]; [|done].
      by rewrite bool_decide_eq_false_2. }
    rewrite Heq in Hm.
    apply andb_true_iff in Hm as [[[_ Hm]%andb_true_iff _]%andb_true_iff _].
    by apply bool_decide_eq_true in Hm.
  - intros Hrole ->. apply Forall_forall.
    intros p [Hm _]%list_elem_of_filter.
    unfold product_matches in Hm. rewrite Hgate in Hm.
    rewrite bool_decide_eq_true_2 in Hm by done.
    apply andb_true_iff in Hm as [[[_ Hm]%andb_true_iff _]%andb_true_iff _].
    by apply bool_decide_eq_true in Hm.
Qed.

Lemma product_where_deleted_gate_witness :
  let contains (keyword : string) (p : Z * Product.t) := true in
  let s := (deleteProduct (Some 2) Scenario.s0).2 in
  (* user U asks for the deleted products and gets the active one *)
  (product_where contains
     (buildProductWhere Scenario.U None (Some deleted) None None None None)
     s).*1 = [1] ∧
  (* the administrator gets the deleted one *)
  (product_where contains
     (buildProductWhere Fixture.root None (Some deleted) None None None None)
     s).*1 = [2] ∧
  Forall (fun p => Product.deletedAt p.2 = None)
    (product_where contains
       (buildProductWhere Scenario.U None (Some deleted) None None None None)
       s).
Proof.
  intros contains s.
  split; [vm_compute; reflexivity|]. split; [vm_compute; reflexivity|].
  refine (proj1 (product_where_deleted_gate contains Scenario.U None
                   (Some deleted) None None None None s) _).
  left. discriminate.
Defined.

Lemma deleteProduct_Ok params_id s u s' :
  deleteProduct params_id s = (Ok u, s') →
  ∃ id p,
    params_id = Some id ∧ 0 < id ∧ product s !! id = Some p ∧
    s' = mkStore (<[id := Product.mk (Product.name p) (Product.price p)
                            (Product.stock p) (Some (now s))]> (product s))
           (user s) (order s) (orderItem s)
           (order_seq s) (orderItem_seq s) (now s).
Proof.
  unfold deleteProduct, idSchema, throw.
  destruct params_id as [id|]; [|discriminate].
  case_bool_decide as Hpos; [|discriminate].
  destruct (product s !! id) as [p|] eqn:Hp; [|discriminate].
  unfold product_update_deletedAt. rewrite Hp.
  intros [= _ <-]. by exists id, p.
Qed.

(** X21. Soft delete and restore are inverse on an active product: deleting
    it stamps its deletedAt and changes nothing else, and restoring it then
    gives back the store as it was.  Restoring a product that is not deleted
    is refused with 404 "Product not found" and writes nothing. *)
Theorem deleteProduct_restoreProduct id p s :
  0 < id → product s !! id = Some p → Product.deletedAt p = None →
  ∃ s1,
    deleteProduct (Some id) s = (Ok tt, s1) ∧
    product s1 !! id
    = Some (Product.mk (Product.name p) (Product.price p) (Product.stock p)
                       (Some (now s))) ∧
    (∀ k, k ≠ id → product s1 !! k = product s !! k) ∧
    restoreProduct (Some id) s1 = (Ok (id, Product.name p), s) ∧
    restoreProduct (Some id) s
    = (Err (AppError 404 "Product not found"), s).
Proof.
  intros Hpos Hp Hactive. eexists. split; [|split; [|split; [|split]]].
  - unfold deleteProduct, idSchema.
    rewrite bool_decide_eq_true_2, Hp by done.
    unfold product_update_deletedAt. by rewrite Hp.
  - simpl. apply lookup_insert_eq.
  - intros k Hk. simpl. by apply lookup_insert_ne.
  - unfold restoreProduct, idSchema.
    rewrite bool_decide_eq_true_2 by done. simpl.
    rewrite lookup_insert_eq. simpl.
    unfold bind, product_update_deletedAt, ret. simpl.
    rewrite lookup_insert_eq. simpl.
    rewrite insert_insert_eq. f_equal.
    destruct s, p. simpl in *. subst. f_equal. by apply insert_id.
  - unfold restoreProduct, idSchema, throw.
    by rewrite bool_decide_eq_true_2, Hp, Hactive.
Qed.

Lemma deleteProduct_restoreProduct_witness :
  let s1 := (deleteProduct (Some 2) Scenario.s0).2 in
  Product.deletedAt <$> product s1 !! 2 = Some (Some 1000) ∧
  restoreProduct (Some 2) s1 = (Ok (2, "B"), Scenario.s0).
Proof.
  intros s1. split; [vm_compute; reflexivity|].
  destruct (deleteProduct_restoreProduct 2 Scenario.B Scenario.s0)
    as (s1' & Hdel & _ & _ & Hrestore & _);
    [lia | reflexivity | reflexivity |].
  assert (s1' = s1) as <-; [|exact Hrestore].
  unfold s1. by rewrite Hdel.
Defined.

(** X22. Once deleteProduct has gone through for a product, every order that
    names it on some line, and whose product ids and quantities are within
    the INTEGER range, is refused with "One or more products not found",
    whoever asks and whatever else the request holds, and writes nothing. *)
Theorem createOrder_deleted_product params_id s u s1 jwt body items s2 :
  deleteProduct params_id s = (Ok u, s1) →
  orderSchema body = Some items →
  in_range items →
  params_id ∈ (Some <$> map Item.productId items) →
  createOrderAt s1 jwt body s2
  = (Err (AppError 400 "One or more products not found"), s2).
Proof.
  intros (id & p & -> & _ & Hp & ->)%deleteProduct_Ok Hparse _ Hin.
  apply list_elem_of_fmap in Hin as (k & [= <-] & Hin).
  unfold createOrderAt, throw. rewrite Hparse.
  rewrite bool_decide_eq_true_2; [done|].
  intros [_ Hres]%findMany_length_lines.
  destruct (Hres _ Hin) as (p' & Hp' & Hdel). simpl in Hp'.
  rewrite lookup_insert_eq in Hp'. injection Hp' as <-. discriminate.
Qed.

Lemma createOrder_deleted_product_witness :
  let s1 := (deleteProduct (Some 2) Scenario.s0).2 in
  createOrderAt s1 Scenario.U Scenario.body s1
  = (Err (AppError 400 "One or more products not found"), s1).
Proof.
  intros s1.
  apply (createOrder_deleted_product (Some 2) Scenario.s0 tt s1 Scenario.U
           Scenario.body [Item.mk 1 2; Item.mk 2 1]).
  - vm_compute. reflexivity.
  - reflexivity.
  - unfold in_range, INT4_MAX. repeat constructor; simpl; lia.
  - simpl. apply list_elem_of_further, list_elem_of_here.
Defined.

(** ** The order of the listing *)

#[global] Instance order_before_total ob : Total (order_before ob).
Proof.
  intros a b. unfold order_before.
  destruct (OrderBy.totalPrice ob) as [[]|], (OrderBy.createdAt ob) as [[]|];
    try lia; by left.
Qed.

#[global] Instance order_before_trans ob : Transitive (order_before ob).
Proof.
  intros a b c. unfold order_before.
  destruct (OrderBy.totalPrice ob) as [[]|], (OrderBy.createdAt ob) as [[]|];
    try lia; done.
Qed.

(** X23. getOrders lists the orders of a page in the order that sortBy asks
    for: by total price or by creation date, ascending or descending, every
    listed order standing before all those listed after it; with no sortBy
    the newest comes first. *)
Theorem getOrders_sorted jwt query s :
  let ob := buildOrderOrderBy (Query.sortBy query) in
  let data := Meta.data (getOrders jwt query s) in
  StronglySorted
    (fun a b =>
       match OrderBy.totalPrice ob, OrderBy.createdAt ob with
       | Some asc, _ =>
           OrderWithItems.totalPrice a ≤ OrderWithItems.totalPrice b
       | Some desc, _ =>
           OrderWithItems.totalPrice b ≤ OrderWithItems.totalPrice a
       | None, Some asc =>
           OrderWithItems.createdAt a ≤ OrderWithItems.createdAt b
       | None, Some desc =>
           OrderWithItems.createdAt b ≤ OrderWithItems.createdAt a
       | None, None => True
       end)
    data ∧
  (Query.sortBy query = None →
   StronglySorted
     (fun a b => OrderWithItems.createdAt b ≤ OrderWithItems.createdAt a)
     data).
Proof.
  intros ob data.
  assert (StronglySorted
            (fun a b =>
               match OrderBy.totalPrice ob, OrderBy.createdAt ob with
               | Some asc, _ =>
                   OrderWithItems.totalPrice a ≤ OrderWithItems.totalPrice b
               | Some desc, _ =>
                   OrderWithItems.totalPrice b ≤ OrderWithItems.totalPrice a
               | None, Some asc =>
                   OrderWithItems.createdAt a ≤ OrderWithItems.createdAt b
               | None, Some desc =>
                   OrderWithItems.createdAt b ≤ OrderWithItems.createdAt a
               | None, None => True
               end)
            data) as Hsorted.
  { unfold data, getOrders, paginationResponse, order_findMany. simpl.
    apply (StronglySorted_fmap _ (order_before ob)); [done|].
    eapply StronglySorted_app_1_l. rewrite take_drop.
    eapply StronglySorted_app_1_r. rewrite take_drop.
    apply StronglySorted_merge_sort; apply _. }
  split; [exact Hsorted|].
  intros Hnone. unfold ob in Hsorted. by rewrite Hnone in Hsorted.
Qed.

(** ** Placing an order, then listing *)

Lemma createOrderLines_ids_NoDup orderId products items :
  ∀ s outs s',
    mapM (createOrderLine orderId products) items s = (Ok outs, s') →
    NoDup (ItemOut.id <$> outs).
Proof.
  induction items as [|item items IH]; intros s outs s' H; simpl in H.
  - injection H as <- _. constructor.
  - apply bind_Ok in H as (out & s1 & Hline & H).
    apply bind_Ok in H as (outs' & s2 & Hrest & Hret).
    injection Hret as <- _.
    apply createOrderLine_Ok in Hline as (p & p0 & _ & Hout & _ & Hitems & _).
    pose proof (createOrderLines_new_items _ _ _ _ _ _ Hrest) as [_ Hfresh].
    csimpl. apply NoDup_cons. split; [|by eapply IH].
    intros (out' & Hid & Hin)%list_elem_of_fmap.
    rewrite Forall_forall in Hfresh. specialize (Hfresh _ Hin).
    rewrite <- Hid, Hitems in Hfresh.
    replace (ItemOut.id out) with (orderItem_seq s) in Hfresh
      by (by subst out).
    by rewrite lookup_insert_eq in Hfresh.
Qed.

Lemma createOrderTx_ids_NoDup jwt items products s r s' :
  createOrderTx jwt items products s = (Ok r, s') →
  NoDup (ItemOut.id <$> OrderResponse.items r).
Proof.
  unfold createOrderTx.
  intros (newOrder & s1 & _ & H)%bind_Ok.
  apply bind_Ok in H as (orderItems & s2 & Hlines & H).
  apply bind_Ok in H as (updated & s3 & _ & H).
  apply bind_Ok in H as (u' & s4 & _ & Hret).
  injection Hret as <- _. simpl. by eapply createOrderLines_ids_NoDup.
Qed.

(** X24. An order that went through is then among the orders the store
    selects for its buyer, with the total price of the response, and the
    items listed under it are the items of the response (in the order of
    their ids), provided every order item row that was there before belongs
    to an order row that was there. *)
Theorem createOrder_then_listed read jwt body s r s' :
  createOrderAt read jwt body s = (Ok r, s') →
  (∀ k row, orderItem s !! k = Some row →
            is_Some (order s !! OrderItem.orderId row)) →
  ∃ row,
    (OrderResponse.id r, row)
    ∈ order_where (buildOrderWhere (Some (jwt_id jwt)) None None) s' ∧
    let listed := include_items s' (OrderResponse.id r, row) in
    OrderWithItems.userId listed = jwt_id jwt ∧
    OrderWithItems.totalPrice listed = OrderResponse.totalPrice r ∧
    OrderWithItems.items listed ≡ₚ OrderResponse.items r.
Proof.
  intros H Hfk.
  pose proof (createOrderAt_Ok _ _ _ _ _ _ H) as (items & _ & _ & _ & Htx).
  pose proof (createOrderTx_ids_NoDup _ _ _ _ _ _ Htx) as Hids.
  pose proof (createOrderTx_new_items _ _ _ _ _ _ Htx) as (Hnew & _ & _).
  apply createOrderTx_Ok in Htx
    as (Hid & Hnone & _ & _ & Horder & _ & Hstored & _).
  exists (Order.mk (jwt_id jwt) (OrderResponse.totalPrice r) (now s)).
  split; [|split; [done|split; [done|]]].
  - apply list_elem_of_filter. split.
    + by apply order_matches_userId.
    + apply elem_of_map_to_list. rewrite Horder, Hid. apply lookup_insert_eq.
  - simpl.
    set (stored out := (ItemOut.id out, item_row (OrderResponse.id r) out)).
    assert (∀ out, omit_orderId (stored out) = out) as Homit
      by by intros [].
    assert (omit_orderId <$> (stored <$> OrderResponse.items r)
            = OrderResponse.items r) as Hback.
    { rewrite <- list_fmap_compose.
      rewrite (list_fmap_ext _ id) by (intros ? out _; apply Homit).
      apply list_fmap_id. }
    transitivity (omit_orderId <$> (stored <$> OrderResponse.items r));
      [|by rewrite Hback].
    apply fmap_Permutation.
    apply NoDup_Permutation.
    + apply NoDup_filter, NoDup_map_to_list.
    + apply (NoDup_fmap_2_strong stored); [|by eapply NoDup_fmap_1].
      intros out1 out2 _ _ Heq.
      by rewrite <- (Homit out1), <- (Homit out2), Heq.
    + intros [k row]. rewrite list_elem_of_filter, elem_of_map_to_list,
        list_elem_of_fmap. simpl. split.
      * intros [Hrow Hk].
        destruct (Hnew _ _ Hk) as [Hold|(out & Hin & <- & ->)].
        -- apply Hfk in Hold as [? Hold]. congruence.
        -- by exists out.
      * intros (out & [= -> ->] & Hin). split; [done|].
        rewrite Forall_forall in Hstored. by apply Hstored.
Qed.

Lemma createOrder_then_listed_witness :
  let r := OrderResponse.mk 4 7 600 1003 0 [ItemOut.mk 4 1 1 600 600] in
  let s' := (createOrder Scenario.U [Scenario.line 1 1] Fixture.shop).2 in
  createOrderAt Fixture.shop Scenario.U [Scenario.line 1 1] Fixture.shop
  = (Ok r, s') ∧
  ∃ row,
    (4, row) ∈ order_where (buildOrderWhere (Some 7) None None) s' ∧
    let listed := include_items s' (4, row) in
    OrderWithItems.userId listed = 7 ∧
    OrderWithItems.totalPrice listed = 600 ∧
    OrderWithItems.items listed ≡ₚ [ItemOut.mk 4 1 1 600 600].
Proof.
  intros r s'.
  assert (createOrderAt Fixture.shop Scenario.U [Scenario.line 1 1]
            Fixture.shop = (Ok r, s')) as H
    by (vm_compute; reflexivity).
  split; [exact H|].
  apply (createOrder_then_listed _ _ _ _ _ _ H).
  intros k row Hk.
  destruct (decide (k = 1)) as [->|?];
    [|destruct (decide (k = 2)) as [->|?];
      [|destruct (decide (k = 3)) as [->|?]]].
  - vm_compute in Hk. injection Hk as <-. by eexists.
  - vm_compute in Hk. injection Hk as <-. by eexists.
  - vm_compute in Hk. injection Hk as <-. by eexists.
  - exfalso. unfold Fixture.shop in Hk. simpl in Hk.
    by rewrite !lookup_insert_ne, lookup_empty in Hk.
Defined.

(** ** The errors the controllers can raise *)

Lemma createOrderLine_Err_client orderId products item s e s' :
  createOrderLine orderId products item s = (Err e, s') →
  is_Some (find_product products (Item.productId item)) →
  e = RecordNotFound ∨ e = UniqueConstraint.
Proof.
  unfold createOrderLine. intros H [p Hfind]. rewrite Hfind in H.
  apply bind_Err in H as [H|(u & s1 & _ & [H|(c & s2 & _ & H)]%bind_Err)].
  - unfold product_update_stock_decrement in H.
    destruct (product s !! p.1); [discriminate|].
    injection H as <- _. by left.
  - unfold orderItem_create in H. simpl in H.
    destruct (orderItem s1 !! orderItem_seq s1); [|discriminate].
    injection H as <- _. by right.
  - discriminate.
Qed.

Lemma createOrderLines_Err_client orderId products items :
  Forall (fun item => is_Some (find_product products (Item.productId item)))
         items →
  ∀ s e s',
    mapM (createOrderLine orderId products) items s = (Err e, s') →
    e = RecordNotFound ∨ e = UniqueConstraint.
Proof.
  induction 1 as [|item items Hitem _ IH]; intros s e s' H; simpl in H.
  - discriminate.
  - apply bind_Err in H as [H|(out & s1 & _ & H)].
    + by eapply createOrderLine_Err_client.
    + apply bind_Err in H as [H|(outs & s2 & _ & H)]; [|discriminate].
      by eapply IH.
Qed.

(** In this embedding, where the client's errors are record-not-found and
    unique-constraint: the errors of createOrder. *)
Lemma createOrderAt_Err_cases read jwt body s e s' :
  createOrderAt read jwt body s = (Err e, s') →
  e = AppError 400 "Invalid request body" ∨
  e = AppError 400 "One or more products not found" ∨
  (∃ name, e = AppError 400 ("Not enough stock for product " +:+ name)) ∨
  e = RecordNotFound ∨ e = UniqueConstraint.
Proof.
  unfold createOrderAt, throw.
  destruct (orderSchema body) as [items|]; [|intros [= <- _]; auto].
  case_bool_decide as Hlen; [intros [= <- _]; auto|].
  destruct (stock_check _ items) as [e'|] eqn:Hcheck.
  { intros [= <- _]. apply stock_check_Some in Hcheck. auto. }
  intros [_ [s1 Htx]]%transaction_Err.
  do 3 right.
  assert (Forall (fun item =>
                    is_Some (find_product
                               (product_findMany_in (map Item.productId items)
                                  read)
                               (Item.productId item))) items) as Hfound.
  { assert (length (product_findMany_in (map Item.productId items) read)
            = length (map Item.productId items)) as Heq.
    { destruct (decide (length (product_findMany_in
                                  (map Item.productId items) read)
                        = length (map Item.productId items))); [done|].
      by destruct Hlen. }
    apply findMany_length_lines in Heq as [_ Hres].
    apply Forall_forall. intros item Hitem.
    assert (Item.productId item ∈ map Item.productId items) as Hin
      by by apply (list_elem_of_fmap_2 Item.productId).
    destruct (find_product_resolved _ read _ Hin (Hres _ Hin)) as (p & -> & _).
    by eexists. }
  unfold createOrderTx in Htx.
  apply bind_Err in Htx as [H|(newOrder & s2 & _ & Htx)].
  { unfold order_create in H. simpl in H.
    destruct (order s !! order_seq s); [|discriminate].
    injection H as <- _. by right. }
  apply bind_Err in Htx as [H|(orderItems & s3 & _ & Htx)].
  { by eapply createOrderLines_Err_client. }
  apply bind_Err in Htx as [H|(updated & s4 & _ & Htx)].
  { unfold order_update_totalPrice_increment in H.
    destruct (order s3 !! newOrder.1); [discriminate|].
    injection H as <- _. by left. }
  apply bind_Err in Htx as [H|(u & s5 & _ & H)]; [|discriminate].
  unfold user_update_point_increment in H.
  destruct (user s4 !! jwt_id jwt); [discriminate|].
  injection H as <- _. by left.
Qed.

(** X25. The errors that createOrder itself raises all have status 400, and
    their messages are "Invalid request body", "One or more products not
    found" and "Not enough stock for product " followed by a product name;
    any other error comes from the client.  The product lookup of the
    transaction, [products.find(...)!], never comes back undefined. *)
Theorem createOrder_AppErrors read jwt body s e s' :
  createOrderAt read jwt body s = (Err e, s') →
  e ≠ TypeError ∧
  ∀ status message,
    e = AppError status message →
    status = 400 ∧
    (message = "Invalid request body" ∨
     message = "One or more products not found" ∨
     ∃ name, message = "Not enough stock for product " +:+ name).
Proof.
  intros [->| [->| [[name ->]| [->| ->]]]]%createOrderAt_Err_cases;
    (split; [discriminate|]); intros status message [= <- <-];
    eauto 6.
Qed.

Lemma createOrder_AppErrors_witness :
  let e := AppError 400 "Not enough stock for product A" in
  createOrderAt Scenario.s0 Scenario.U Scenario.too_many_repeated
    Scenario.s0_without_B
  = (Err (AppError 400 "One or more products not found"),
     Scenario.s0_without_B) ∧
  createOrderAt Scenario.s0 Scenario.U [Scenario.line 1 10] Scenario.s0
  = (Err e, Scenario.s0) ∧
  e ≠ TypeError ∧
  ∀ status message,
    e = AppError status message →
    status = 400 ∧
    (message = "Invalid request body" ∨
     message = "One or more products not found" ∨
     ∃ name, message = "Not enough stock for product " +:+ name).
Proof.
  intros e.
  split; [vm_compute; reflexivity|]. split; [vm_compute; reflexivity|].
  apply (createOrder_AppErrors Scenario.s0 Scenario.U [Scenario.line 1 10]
           Scenario.s0 e Scenario.s0).
  vm_compute. reflexivity.
Defined.

(** X26. The errors that transferPoint itself raises all have status 400, and
    their messages are "Error in validation", "Sender or Receiver not
    found", "Can't self transfer point" and "Insufficient points"; any other
    error comes from the client.  The check that answers "Point must be
    greater than 0" never fires, since the schema has already refused such
    an amount. *)
Theorem transferPoint_AppErrors read jwt body s e s' :
  transferPointAt read jwt body s = (Err e, s') →
  ∀ status message,
    e = AppError status message →
    status = 400 ∧
    message ≠ "Point must be greater than 0" ∧
    (message = "Error in validation" ∨
     message = "Sender or Receiver not found" ∨
     message = "Can't self transfer point" ∨
     message = "Insufficient points").
Proof.
  unfold transferPointAt, throw.
  destruct (transferPointSchema body) as [data|] eqn:Hparse.
  2: { intros [= <- _] status message [= <- <-]. auto. }
  apply transferPointSchema_Some in Hparse as [_ Hpos].
  rewrite bool_decide_eq_false_2 by lia.
  destruct (user_findUnique (jwt_id jwt) read) as [sender|].
  2: { intros [= <- _] status message [= <- <-]. auto. }
  destruct (user_findUnique (Transfer.receiverId data) read) as [receiver|].
  2: { intros [= <- _] status message [= <- <-]. auto. }
  case_bool_decide as Hself.
  { intros [= <- _] status message [= <- <-]. auto 6. }
  case_bool_decide as Hbal.
  { intros [= <- _] status message [= <- <-]. auto 6. }
  intros [_ [s1 Htx]]%transaction_Err status message ->.
  apply bind_Err in Htx as [H|(us & s2 & _ & Htx)].
  { unfold user_update_point_decrement, user_update_point_increment in H.
    destruct (user s !! sender.1); discriminate. }
  apply bind_Err in Htx as [H|(ur & s3 & _ & H)]; [|discriminate].
  unfold user_update_point_increment in H.
  destruct (user s2 !! Transfer.receiverId data); discriminate.
Qed.

Lemma transferPoint_AppErrors_witness :
  let e := AppError 400 "Sender or Receiver not found" in
  transferPointAt Scenario.bank Scenario.U (Scenario.transfer 9 1)
    Scenario.bank
  = (Err e, Scenario.bank) ∧
  (transferPointAt Scenario.bank Scenario.U (Scenario.transfer 8 0)
     Scenario.bank).1
  = Err (AppError 400 "Error in validation") ∧
  ∀ status message,
    e = AppError status message →
    status = 400 ∧
    message ≠ "Point must be greater than 0" ∧
    (message = "Error in validation" ∨
     message = "Sender or Receiver not found" ∨
     message = "Can't self transfer point" ∨
     message = "Insufficient points").
Proof.
  intros e.
  split; [vm_compute; reflexivity|]. split; [vm_compute; reflexivity|].
  apply (transferPoint_AppErrors Scenario.bank Scenario.U
           (Scenario.transfer 9 1) Scenario.bank e Scenario.bank).
  vm_compute. reflexivity.
Defined.
